(** * lyricalVideo: lyrics resolution and synchronisation engine

    A shallow embedding of the core of [src/main.py]: the retrying HTTP
    client, the two-provider lyrics resolver, the LRC timestamp parser, the
    overlay cue builder, and the cue/word tracker of the embedded player
    script.

    Modelling conventions.
    - A Python or JavaScript [float] is an exact rational (type [Q]) kept in
      lowest terms, so that equal numbers are equal terms.  Rounding error of
      binary floating point is outside this model; [round(x, 3)] keeps its
      round-half-to-even rule.
    - A [str] is a [string]: a sequence of code points below 256.
    - Exceptions are values of [exn]; a computation that can raise returns a
      [result].  Network calls and sleeps are recorded in a trace that is
      threaded through the client and the resolver. *)

From Stdlib Require Import QArith Qround Qminmax ZArith String Ascii List.
From Stdlib Require Import Lia Lqa Bool Arith Sorted Permutation.
Import ListNotations.

Open Scope string_scope.
Open Scope Z_scope.

(* ================================================================== *)
(** ** Numbers *)

Definition float : Set := Q.

Module Float.

Definition lit (q : Q) : float := Qred q.
Definition of_int (z : Z) : float := inject_Z z.
Definition add (a b : float) : float := Qred (a + b).
Definition sub (a b : float) : float := Qred (a - b).
Definition mul (a b : float) : float := Qred (a * b).
Definition div (a b : float) : float := Qred (a / b).

Definition eqb (a b : float) : bool := Qeq_bool a b.
Definition leb (a b : float) : bool := Qle_bool a b.
Definition ltb (a b : float) : bool := negb (Qle_bool b a).

(** Python's [max(a, b)] and JavaScript's [Math.max(a, b)] on two numbers:
    the second argument when it is strictly greater, else the first. *)
Definition max (a b : float) : float := if ltb a b then b else a.
Definition min (a b : float) : float := if ltb b a then b else a.

(** [math.floor] / [Math.floor]. *)
Definition floor (a : float) : Z := Qfloor a.

(** Nearest integer, ties to the even one. *)
Definition round_half_even (q : Q) : Z :=
  let f := Qfloor q in
  match Qcompare (q - inject_Z f) (1 # 2) with
  | Lt => f
  | Gt => f + 1
  | Eq => if Z.even f then f else f + 1
  end.

(** Python's [round(x, ndigits)] on a float, [ndigits >= 0]. *)
Definition round (x : float) (ndigits : nat) : float :=
  let scale := inject_Z (10 ^ Z.of_nat ndigits) in
  Qred (inject_Z (round_half_even (x * scale)) / scale).

End Float.

(* ================================================================== *)
(** ** Exceptions and results *)

(** The exception classes the code raises, catches or lets through.  The
    [requests] classes form the library's hierarchy: [HTTPError],
    [ConnectionError] and [Timeout] derive from [RequestException];
    [ConnectTimeout] derives from both [ConnectionError] and [Timeout];
    [ReadTimeout] from [Timeout]; the library's [JSONDecodeError] derives from
    [RequestException] and from [ValueError]. *)
Inductive exn_class :=
| RequestException
| HTTPError
| ConnectionError
| Timeout
| ConnectTimeout
| ReadTimeout
| JSONDecodeError
| ValueError
| AttributeError
| TypeError
| KeyError
| IndexError.

Definition exn_class_eqb (a b : exn_class) : bool :=
  match a, b with
  | RequestException, RequestException
  | HTTPError, HTTPError
  | ConnectionError, ConnectionError
  | Timeout, Timeout
  | ConnectTimeout, ConnectTimeout
  | ReadTimeout, ReadTimeout
  | JSONDecodeError, JSONDecodeError
  | ValueError, ValueError
  | AttributeError, AttributeError
  | TypeError, TypeError
  | KeyError, KeyError
  | IndexError, IndexError => true
  | _, _ => false
  end.

(** [issubclass c d]. *)
Definition issubclass (c d : exn_class) : bool :=
  exn_class_eqb c d ||
  match c, d with
  | HTTPError, RequestException
  | ConnectionError, RequestException
  | Timeout, RequestException
  | ConnectTimeout, RequestException
  | ConnectTimeout, ConnectionError
  | ConnectTimeout, Timeout
  | ReadTimeout, RequestException
  | ReadTimeout, Timeout
  | JSONDecodeError, RequestException
  | JSONDecodeError, ValueError => true
  | _, _ => false
  end.

(** An exception object: its class, its message, and for an [HTTPError] the
    status code of [exc.response] ([None] when there is no response). *)
Record exn := Exn {
  exn_cls : exn_class;
  exn_msg : string;
  exn_status : option Z
}.

Definition isinstance (e : exn) (c : exn_class) : bool :=
  issubclass (exn_cls e) c.

Inductive result (A : Type) :=
| Ok (a : A)
| Raise (e : exn).
Arguments Ok {A} a.
Arguments Raise {A} e.

(** Pure fallible code. *)
Definition rbind {A B} (r : result A) (k : A -> result B) : result B :=
  match r with
  | Ok a => k a
  | Raise e => Raise e
  end.

Declare Scope result_scope.
Delimit Scope result_scope with result.
Notation "x <- r ;; k" := (rbind r (fun x => k))
  (at level 61, r at next level, right associativity) : result_scope.

Fixpoint rmap {A B} (f : A -> result B) (l : list A) : result (list B) :=
  match l with
  | [] => Ok []
  | a :: l' =>
      (b <- f a ;;
       bs <- rmap f l' ;;
       Ok (b :: bs))%result
  end.

(* ================================================================== *)
(** ** Strings *)

Definition LF : string := String (ascii_of_nat 10) "".
Definition CR : string := String (ascii_of_nat 13) "".

Definition code (c : ascii) : nat := nat_of_ascii c.

Definition between (lo hi n : nat) : bool := (lo <=? n)%nat && (n <=? hi)%nat.

(** [str.isspace] on one code point below 256: tab to carriage return, the
    four separators 28 to 31, space, next-line and no-break space. *)
Definition py_isspace (c : ascii) : bool :=
  let n := code c in
  between 9 13 n || between 28 32 n || (n =? 133)%nat || (n =? 160)%nat.

(** JavaScript's white space and line terminators ([\s], [trim]) below 256. *)
Definition js_isspace (c : ascii) : bool :=
  let n := code c in
  between 9 13 n || (n =? 32)%nat || (n =? 160)%nat.

(** [\d] below 256. *)
Definition is_digit (c : ascii) : bool := between 48 57 (code c).

Definition is_empty (s : string) : bool :=
  match s with
  | EmptyString => true
  | String _ _ => false
  end.

Section Strip.
Variable space : ascii -> bool.

Fixpoint lstrip (s : string) : string :=
  match s with
  | EmptyString => EmptyString
  | String c r => if space c then lstrip r else s
  end.

Fixpoint rstrip (s : string) : string :=
  match s with
  | EmptyString => EmptyString
  | String c r =>
      let r' := rstrip r in
      if space c && is_empty r' then EmptyString else String c r'
  end.

Definition strip (s : string) : string := rstrip (lstrip s).

(** The maximal runs of non-space characters, in order: what
    [s.split(/\s+/).filter(Boolean)] leaves. *)
Fixpoint words_aux (cur : string) (s : string) : list string :=
  match s with
  | EmptyString => if is_empty cur then [] else [cur]
  | String c r =>
      if space c
      then ((if is_empty cur then [] else [cur]) ++ words_aux "" r)%list
      else words_aux (cur ++ String c "") r
  end.

Definition words (s : string) : list string := words_aux "" s.
End Strip.

Definition py_strip := strip py_isspace.
Definition js_trim := strip js_isspace.

(** [str.lower] below 256: the Latin capitals, and the accented capitals
    192 to 222 but for the multiplication sign. *)
Definition lower_char (c : ascii) : ascii :=
  let n := code c in
  if between 65 90 n || (between 192 222 n && negb (n =? 215)%nat)
  then ascii_of_nat (n + 32)
  else c.

Fixpoint py_lower (s : string) : string :=
  match s with
  | EmptyString => EmptyString
  | String c r => String (lower_char c) (py_lower r)
  end.

(** [s.replace(c, "")] for a one-character [c]. *)
Fixpoint remove_char (c : ascii) (s : string) : string :=
  match s with
  | EmptyString => EmptyString
  | String d r =>
      if Ascii.eqb d c then remove_char c r else String d (remove_char c r)
  end.

(** [s.split(c)] for a one-character separator: never empty. *)
Fixpoint split_char (c : ascii) (s : string) : list string :=
  match s with
  | EmptyString => [EmptyString]
  | String d r =>
      if Ascii.eqb d c then EmptyString :: split_char c r
      else match split_char c r with
           | [] => [String d EmptyString]
           | h :: t => String d h :: t
           end
  end.

(** [sep.join(l)]. *)
Fixpoint join (sep : string) (l : list string) : string :=
  match l with
  | [] => ""
  | [a] => a
  | a :: l' => a ++ sep ++ join sep l'
  end.

(* ================================================================== *)
(** ** JSON values as Python sees them *)

#[warnings="-register-all"] Inductive json :=
| JNull
| JBool (b : bool)
| JNumber (q : Q)
| JString (s : string)
| JArray (items : list json)
| JObject (fields : list (string * json)).

(** Truth value of a decoded JSON value ([if x:], [not x]). *)
Definition truthy (j : json) : bool :=
  match j with
  | JNull => false
  | JBool b => b
  | JNumber q => negb (Qeq_bool q 0)
  | JString s => negb (is_empty s)
  | JArray l => match l with [] => false | _ => true end
  | JObject f => match f with [] => false | _ => true end
  end.

Definition is_dict (j : json) : bool :=
  match j with JObject _ => true | _ => false end.

Definition is_list (j : json) : bool :=
  match j with JArray _ => true | _ => false end.

Fixpoint lookup (key : string) (fields : list (string * json)) : option json :=
  match fields with
  | [] => None
  | (k, v) :: rest => if String.eqb k key then Some v else lookup key rest
  end.

(** [d.get(key, default)] on a dict. *)
Definition dict_get (j : json) (key : string) (default : json) : json :=
  match j with
  | JObject f => match lookup key f with Some v => v | None => default end
  | _ => default
  end.

Definition no_attribute (name : string) : exn :=
  Exn AttributeError ("object has no attribute " ++ name) None.

(** [x.get(key, default)] on any value: only a dict has [get]. *)
Definition py_get (j : json) (key : string) (default : json) : result json :=
  if is_dict j then Ok (dict_get j key default) else Raise (no_attribute "get").

Fixpoint chars (s : string) : list json :=
  match s with
  | EmptyString => []
  | String c r => JString (String c "") :: chars r
  end.

(** The items a [for] loop draws from a value. *)
Definition py_iter (j : json) : result (list json) :=
  match j with
  | JArray l => Ok l
  | JObject f => Ok (map (fun kv => JString (fst kv)) f)
  | JString s => Ok (chars s)
  | _ => Raise (Exn TypeError "object is not iterable" None)
  end.

(** [x[0]]. *)
Definition py_first (j : json) : result json :=
  match j with
  | JArray (x :: _) => Ok x
  | JString (String c _) => Ok (JString (String c ""))
  | JArray [] | JString EmptyString =>
      Raise (Exn IndexError "index out of range" None)
  | JObject _ => Raise (Exn KeyError "0" None)
  | _ => Raise (Exn TypeError "object is not subscriptable" None)
  end.

(* ================================================================== *)
(** ** Effects: the network and the clock *)

Inductive event :=
| EvGet (url : string) (timeout_seconds : Z)
| EvSleep (seconds : float).

Definition trace := list event.

Definition is_get (e : event) : bool :=
  match e with EvGet _ _ => true | EvSleep _ => false end.

Definition is_sleep (e : event) : bool :=
  match e with EvSleep _ => true | EvGet _ _ => false end.

Definition requests_made (tr : trace) : nat := List.length (filter is_get tr).
Definition sleeps_made (tr : trace) : nat := List.length (filter is_sleep tr).

(** A computation that may raise, and may call the network or sleep. *)
Definition M (A : Type) : Type := trace -> result A * trace.

Definition ret {A} (a : A) : M A := fun tr => (Ok a, tr).
Definition raise {A} (e : exn) : M A := fun tr => (Raise e, tr).

Definition bind {A B} (m : M A) (k : A -> M B) : M B :=
  fun tr =>
    match m tr with
    | (Ok a, tr') => k a tr'
    | (Raise e, tr') => (Raise e, tr')
    end.

Definition lift {A} (r : result A) : M A := fun tr => (r, tr).

(** [try: m  except Exception as exc: handler exc]; a handler re-raises what
    it does not catch. *)
Definition catch {A} (m : M A) (handler : exn -> M A) : M A :=
  fun tr =>
    match m tr with
    | (Ok a, tr') => (Ok a, tr')
    | (Raise e, tr') => handler e tr'
    end.

Declare Scope io_scope.
Delimit Scope io_scope with io.
Notation "x <- m ;; k" := (bind m (fun x => k))
  (at level 61, m at next level, right associativity) : io_scope.
Notation "m ;; k" := (bind m (fun _ => k))
  (at level 61, right associativity) : io_scope.

(** [range(lo, hi)]. *)
Definition py_range (lo hi : Z) : list Z :=
  map (fun k => lo + Z.of_nat k) (seq 0 (Z.to_nat (hi - lo))).

(* ================================================================== *)
(** ** Constants *)

Definition LYRICS_TIMEOUT_SECONDS : Z := 12.
Definition LYRICS_MAX_RETRIES : Z := 3.
Definition LYRICS_BACKOFF_SECONDS : float := Float.lit 1.2.
Definition FALLBACK_SECONDS_PER_LINE : float := Float.lit 2.8.

Definition RETRYABLE_STATUS : list Z := [408; 429; 500; 502; 503; 504].

(** [status_code in {408, 429, 500, 502, 503, 504}]; [None] is in no set of
    numbers. *)
Definition status_in (status : option Z) (codes : list Z) : bool :=
  match status with
  | Some c => existsb (Z.eqb c) codes
  | None => false
  end.

(* ================================================================== *)
(** ** ProviderClient: [_get_json_with_retries] *)

Section Client.

(** The outcome of one attempt, that is of [requests.get],
    [raise_for_status] and [response.json()] together, for a URL and the
    number of requests issued before it. *)
Variable net : string -> nat -> result json.

Definition http_get (url : string) (timeout_seconds : Z) : M json :=
  fun tr => (net url (requests_made tr), (tr ++ [EvGet url timeout_seconds])%list).

Definition sleep (seconds : float) : M unit :=
  fun tr => (Ok tt, (tr ++ [EvSleep seconds])%list).

(** The body of the [for attempt in range(1, LYRICS_MAX_RETRIES + 1)] loop,
    then the two statements after it. *)
Fixpoint retry_loop (url : string) (timeout_seconds : Z)
    (attempts : list Z) (last_error : option exn) : M json :=
  match attempts with
  | [] =>
      match last_error with
      | Some e => raise e
      | None =>
          raise (Exn RequestException
                   "Unknown network error while requesting lyrics API." None)
      end
  | attempt :: rest =>
      catch (http_get url timeout_seconds)
        (fun exc =>
           if isinstance exc HTTPError then
             let status_code := exn_status exc in
             let retryable := status_in status_code RETRYABLE_STATUS in
             if (attempt <? LYRICS_MAX_RETRIES) && retryable then
               (sleep (Float.mul LYRICS_BACKOFF_SECONDS (Float.of_int attempt)) ;;
                retry_loop url timeout_seconds rest (Some exc))%io
             else raise exc
           else if isinstance exc Timeout || isinstance exc ConnectionError then
             if attempt <? LYRICS_MAX_RETRIES then
               (sleep (Float.mul LYRICS_BACKOFF_SECONDS (Float.of_int attempt)) ;;
                retry_loop url timeout_seconds rest (Some exc))%io
             else raise exc
           else raise exc)
  end.

Definition _get_json_with_retries (url : string) (timeout_seconds : Z) : M json :=
  retry_loop url timeout_seconds (py_range 1 (LYRICS_MAX_RETRIES + 1)) None.

End Client.

(* ================================================================== *)
(** ** LyricsResolver *)

Section Resolver.

(** [requests.utils.quote]. *)
Variable quote : string -> string.

(** [str(x)] for a decoded JSON value that is not a string. *)
Variable py_repr : json -> string.

Variable net : string -> nat -> result json.

Definition py_str (j : json) : string :=
  match j with
  | JString s => s
  | _ => py_repr j
  end.

Definition get_json (url : string) : M json :=
  _get_json_with_retries net url LYRICS_TIMEOUT_SECONDS.

Definition suggest_url (song_name : string) : string :=
  "https://api.lyrics.ovh/suggest/" ++ quote song_name.

Definition lyrics_url (artist title : string) : string :=
  "https://api.lyrics.ovh/v1/" ++ quote artist ++ "/" ++ quote title.

Definition lrclib_url (song_name : string) : string :=
  "https://lrclib.net/api/search?q=" ++ quote song_name.

Definition _search_song_candidates (song_name : string) : M json :=
  (payload <- get_json (suggest_url song_name) ;;
   ret (if is_dict payload then dict_get payload "data" (JArray []) else JArray []))%io.

Definition _fetch_lyrics (artist title : string) : M string :=
  (payload <- get_json (lyrics_url artist title) ;;
   let lyrics := if is_dict payload then dict_get payload "lyrics" JNull else JNull in
   if truthy lyrics then
     match lyrics with
     | JString s => ret (py_strip s)
     | _ => raise (no_attribute "strip")
     end
   else ret "")%io.

(** The loop that looks for an exact, case-insensitive match of the field
    [key] and breaks at the first one; [None] when it runs to the end. *)
Fixpoint find_exact (key target_lower : string) (items : list json)
    : result (option json) :=
  match items with
  | [] => Ok None
  | candidate :: rest =>
      (v <- py_get candidate key (JString "") ;;
       let title := py_lower (py_strip (py_str v)) in
       if String.eqb title target_lower then Ok (Some candidate)
       else find_exact key target_lower rest)%result
  end.

Definition _find_and_fetch_lyrics_lyricsovh (song_name : string)
    : M (string * string * string) :=
  (candidates <- _search_song_candidates song_name ;;
   if negb (truthy candidates) then
     raise (Exn ValueError "Song not found in lyrics search results." None)
   else
     let target_lower := py_lower (py_strip song_name) in
     items <- lift (py_iter candidates) ;;
     found <- lift (find_exact "title" target_lower items) ;;
     chosen <- match found with
               | Some c => ret c
               | None => lift (py_first candidates)
               end ;;
     title_v <- lift (py_get chosen "title" (JString "")) ;;
     let matched_title := py_strip (py_str title_v) in
     artist_v <- lift (py_get chosen "artist" JNull) ;;
     let artist_obj := if is_dict artist_v then artist_v else JObject [] in
     let matched_artist := py_strip (py_str (dict_get artist_obj "name" (JString ""))) in
     if is_empty matched_title || is_empty matched_artist then
       raise (Exn ValueError
                "Unable to resolve artist/title for the requested song." None)
     else
       lyrics <- _fetch_lyrics matched_artist matched_title ;;
       if is_empty lyrics then
         raise (Exn ValueError
                  "Lyrics were not available for the matched song." None)
       else ret (lyrics, matched_title, matched_artist))%io.

Definition _find_and_fetch_lyrics_lrclib (song_name : string)
    : M (string * string * string) :=
  (payload <- get_json (lrclib_url song_name) ;;
   if negb (is_list payload) || negb (truthy payload) then
     raise (Exn ValueError
              "Song not found in fallback lyrics search results." None)
   else
     let target_lower := py_lower (py_strip song_name) in
     items <- lift (py_iter payload) ;;
     found <- lift (find_exact "trackName" target_lower items) ;;
     chosen <- match found with
               | Some c => ret c
               | None => lift (py_first payload)
               end ;;
     title_v <- lift (py_get chosen "trackName" (JString "")) ;;
     let matched_title := py_strip (py_str title_v) in
     artist_v <- lift (py_get chosen "artistName" (JString "")) ;;
     let matched_artist := py_strip (py_str artist_v) in
     if is_empty matched_title || is_empty matched_artist then
       raise (Exn ValueError
                "Unable to resolve fallback artist/title for the requested song."
                None)
     else
       plain_v <- lift (py_get chosen "plainLyrics" (JString "")) ;;
       let lyrics := py_strip (py_str plain_v) in
       lyrics <- (if is_empty lyrics then
                    synced_v <- lift (py_get chosen "syncedLyrics" (JString "")) ;;
                    ret (py_strip (py_str synced_v))
                  else ret lyrics) ;;
       if is_empty lyrics then
         raise (Exn ValueError
                  "Lyrics were not available from the fallback provider." None)
       else ret (lyrics, matched_title, matched_artist))%io.

(** [except (requests.exceptions.RequestException, ValueError)]. *)
Definition caught (e : exn) : bool :=
  isinstance e RequestException || isinstance e ValueError.

Definition both_timed_out : exn :=
  Exn Timeout "Both lyrics providers timed out." None.

Definition not_found_anywhere : exn :=
  Exn ValueError "Song not found or lyrics unavailable across both providers." None.

Definition lookup_failed : exn :=
  Exn RequestException "Lyrics lookup failed across both providers." None.

Definition find_and_fetch_lyrics (song_name : string)
    : M (string * string * string) :=
  catch (_find_and_fetch_lyrics_lyricsovh song_name)
    (fun primary_error =>
       if caught primary_error then
         catch (_find_and_fetch_lyrics_lrclib song_name)
           (fun fallback_exc =>
              if caught fallback_exc then
                if isinstance primary_error Timeout && isinstance fallback_exc Timeout
                then raise both_timed_out
                else if isinstance primary_error ValueError
                        && isinstance fallback_exc ValueError
                then raise not_found_anywhere
                else raise lookup_failed
              else raise fallback_exc)
       else raise primary_error).

End Resolver.

(* ================================================================== *)
(** ** LrcParser: [parse_lrc_synced_lines] *)

(** The groups of one match of
    [\[(\d{1,2}):(\d{2})(?:\.(\d{1,3}))?\]]: minutes, seconds, and the
    fraction when there is one. *)
Record ts_match := TsMatch {
  ts_minutes : string;
  ts_seconds : string;
  ts_fraction : option string
}.

(** The longest run of at most [k] digits at the head of [s], and what
    follows it. *)
Fixpoint take_digits (k : nat) (s : string) : string * string :=
  match k, s with
  | S k', String c r =>
      if is_digit c
      then let (d, rest) := take_digits k' r in (String c d, rest)
      else (EmptyString, s)
  | _, _ => (EmptyString, s)
  end.

(** One timestamp bracket at the head of [s].  Every bounded repetition is
    followed by a character that is no digit, so the greedy choice is the only
    one that can match: [\d{1,2}] takes the longest run and then needs [:],
    [\d{2}] takes two digits, and the optional fraction is taken exactly when
    a dot follows. *)
Definition match_ts (s : string) : option (ts_match * string) :=
  match s with
  | String "[" r =>
      let (mm, r1) := take_digits 2 r in
      if is_empty mm then None
      else
        match r1 with
        | String ":" r2 =>
            let (ss, r3) := take_digits 2 r2 in
            if negb (String.length ss =? 2)%nat then None
            else
              match r3 with
              | String "]" r4 => Some (TsMatch mm ss None, r4)
              | String "." r4 =>
                  let (ff, r5) := take_digits 3 r4 in
                  if is_empty ff then None
                  else
                    match r5 with
                    | String "]" r6 => Some (TsMatch mm ss (Some ff), r6)
                    | _ => None
                    end
              | _ => None
              end
        | _ => None
        end
  | _ => None
  end.

(** The greedy repetition [( ... )+] after its first round: brackets are
    taken for as long as one is at the head.  [fuel] bounds the rounds; the
    length of the string is enough, as every round consumes characters. *)
Fixpoint skip_ts (fuel : nat) (s : string) : string :=
  match fuel with
  | O => s
  | S fuel' =>
      match match_ts s with
      | Some (_, rest) => skip_ts fuel' rest
      | None => s
      end
  end.

(** [line_pattern.match(line)]: [None] when the line does not start with a
    bracket, else group 5, which is [None] when nothing follows the
    brackets. *)
Definition line_pattern_match (line : string) : option (option string) :=
  match match_ts line with
  | None => None
  | Some (_, r) =>
      let rest := skip_ts (String.length r) r in
      Some (if is_empty rest then None else Some rest)
  end.

(** [ts_pattern.finditer(line)]: the matches from left to right, each search
    resuming where the previous match ended. *)
Fixpoint finditer (fuel : nat) (s : string) : list ts_match :=
  match fuel with
  | O => []
  | S fuel' =>
      match match_ts s with
      | Some (m, rest) => m :: finditer fuel' rest
      | None =>
          match s with
          | EmptyString => []
          | String _ r => finditer fuel' r
          end
      end
  end.

Definition ts_finditer (line : string) : list ts_match :=
  finditer (String.length line) line.

Definition digit_value (c : ascii) : Z := Z.of_nat (code c - 48).

Fixpoint int_digits (acc : Z) (s : string) : result Z :=
  match s with
  | EmptyString => Ok acc
  | String c r =>
      if is_digit c then int_digits (10 * acc + digit_value c) r
      else Raise (Exn ValueError "invalid literal for int() with base 10" None)
  end.

(** [int(s)] on a string of decimal digits; anything else is a
    [ValueError]. *)
Definition py_int (s : string) : result Z :=
  if is_empty s
  then Raise (Exn ValueError "invalid literal for int() with base 10" None)
  else int_digits 0 s.

(** The body of the [for ts in ts_pattern.finditer(line)] loop. *)
Definition total_seconds (ts : ts_match) : result float :=
  (minutes <- py_int (ts_minutes ts) ;;
   seconds <- py_int (ts_seconds ts) ;;
   let fraction := match ts_fraction ts with Some f => f | None => "0" end in
   millis <- py_int (substring 0 3 (fraction ++ "000")) ;;
   Ok (Float.add (Float.of_int (minutes * 60 + seconds))
                 (Float.div (Float.of_int millis) (Float.lit 1000.0))))%result.

(** [(m.group(5) or "").strip()] for a line that matched. *)
Definition lyric_text_of (group5 : option string) : string :=
  py_strip (match group5 with Some g => g | None => "" end).

(** What one pass of the [for raw_line in ...] loop appends to [cues]. *)
Definition cues_of_line (raw_line : string) : result (list (float * string)) :=
  let line := py_strip raw_line in
  if is_empty line then Ok []
  else
    match line_pattern_match line with
    | None => Ok []
    | Some group5 =>
        let lyric_text := lyric_text_of group5 in
        if is_empty lyric_text then Ok []
        else
          rmap (fun ts =>
                  (t <- total_seconds ts ;;
                   Ok (t, lyric_text))%result)
               (ts_finditer line)
    end.

(** [cues.sort(key=lambda x: x[0])]: a stable sort on the time alone, here by
    insertion behind every cue that is not later. *)
Fixpoint insert_by_time (c : float * string) (l : list (float * string))
    : list (float * string) :=
  match l with
  | [] => [c]
  | d :: l' =>
      if Float.leb (fst d) (fst c) then d :: insert_by_time c l'
      else c :: d :: l'
  end.

Definition sort_by_time (l : list (float * string)) : list (float * string) :=
  fold_left (fun acc c => insert_by_time c acc) l [].

(** [cue == last] on two (time, text) tuples. *)
Definition cue_eqb (a b : float * string) : bool :=
  Float.eqb (fst a) (fst b) && String.eqb (snd a) (snd b).

(** The deduplication loop: a cue is kept unless it equals the one before
    it. *)
Fixpoint dedup_loop (last : option (float * string)) (cues : list (float * string))
    : list (float * string) :=
  match cues with
  | [] => []
  | cue :: rest =>
      let keep := match last with
                  | Some l => negb (cue_eqb cue l)
                  | None => true
                  end in
      ((if keep then [cue] else []) ++ dedup_loop (Some cue) rest)%list
  end.

Definition lrc_lines (lrc_text : string) : list string :=
  split_char (ascii_of_nat 10) (remove_char (ascii_of_nat 13) lrc_text).

Definition parse_lrc_synced_lines (lrc_text : string)
    : result (list (float * string)) :=
  if is_empty lrc_text then Ok []
  else
    (per_line <- rmap cues_of_line (lrc_lines lrc_text) ;;
     let cues := sort_by_time (concat per_line) in
     Ok (dedup_loop None cues))%result.

(** [normalize_lyrics_lines]. *)
Definition normalize_lyrics_lines (lyrics_text : string) : list string :=
  filter (fun line => negb (is_empty line))
         (map py_strip (lrc_lines lyrics_text)).

(* ================================================================== *)
(** ** CueBuilder: [_build_overlay_cues] *)

(** One [{"start": ..., "end": ..., "text": ...}] record. *)
Record cue := Cue {
  start : float;
  end_ : float;
  text : string
}.

(** [enumerate(l)]. *)
Definition enumerate {A} (l : list A) : list (nat * A) :=
  combine (seq 0 (List.length l)) l.

Definition int_of_nat (i : nat) : float := Float.of_int (Z.of_nat i).

(** The body of the loop over [enumerate(synced_cues)]. *)
Definition synced_cue (synced_cues : list (float * string))
    (seconds_per_line : float) (entry : nat * (float * string)) : cue :=
  let '(i, (start_sec, text)) := entry in
  let end_sec :=
    if (i + 1 <? List.length synced_cues)%nat then
      let next_start := fst (nth (i + 1) synced_cues (Float.lit 0, "")) in
      Float.max (Float.add start_sec (Float.lit 0.15))
                (Float.sub next_start (Float.lit 0.05))
    else
      Float.add start_sec (Float.max (Float.lit 2.0) seconds_per_line) in
  Cue (Float.round start_sec 3) (Float.round end_sec 3) text.

(** The body of the loop over [enumerate(lines)]. *)
Definition fixed_cue (seconds_per_line : float) (entry : nat * string) : cue :=
  let '(i, line) := entry in
  let start_sec := Float.mul (int_of_nat i) seconds_per_line in
  let end_sec := Float.mul (int_of_nat (i + 1)) seconds_per_line in
  Cue (Float.round start_sec 3) (Float.round end_sec 3) line.

(** [synced_cues] is [None], or a list; [if synced_cues:] takes the first
    branch for a list that is not empty. *)
Definition _build_overlay_cues (lines : list string) (seconds_per_line : float)
    (synced_cues : option (list (float * string))) : list cue :=
  match synced_cues with
  | Some (c :: cs) =>
      map (synced_cue (c :: cs) seconds_per_line) (enumerate (c :: cs))
  | _ => map (fixed_cue seconds_per_line) (enumerate lines)
  end.

(* ================================================================== *)
(** ** PlaybackCueTracker: the player script *)

(** The [for] loop of [findCueIndex], from index [i] on. *)
Fixpoint findCueIndex_from (i : Z) (cues : list cue) (t : float) : option Z :=
  match cues with
  | [] => None
  | c :: rest =>
      if Float.leb (start c) t && Float.ltb t (end_ c) then Some i
      else findCueIndex_from (i + 1) rest t
  end.

Definition findCueIndex (cues : list cue) (t : float) : Z :=
  match findCueIndex_from 0 cues t with
  | Some i => i
  | None =>
      let n := Z.of_nat (List.length cues) in
      if n =? 0 then -1 else n - 1
  end.

Definition js_words (s : string) : list string := words js_isspace s.

(** [activeIdx] of [renderCue], for the words of the cue's text. *)
Definition activeIdx (c : cue) (t : float) (nwords : nat) : Z :=
  let duration := Float.max (Float.lit 0.15) (Float.sub (end_ c) (start c)) in
  let progress :=
    Float.min (Float.lit 0.999)
              (Float.max (Float.lit 0) (Float.div (Float.sub t (start c)) duration)) in
  Z.min (Z.of_nat nwords - 1)
        (Float.floor (Float.mul progress (int_of_nat nwords))).

Definition dquote : string := String (ascii_of_nat 34) "".

(** [esc]. *)
Fixpoint esc (s : string) : string :=
  match s with
  | EmptyString => EmptyString
  | String c r =>
      (if Ascii.eqb c "&" then "&amp;"
       else if Ascii.eqb c "<" then "&lt;"
       else if Ascii.eqb c ">" then "&gt;"
       else String c "") ++ esc r
  end.

Definition span (active : bool) (w : string) : string :=
  "<span class=" ++ dquote ++ "word " ++ (if active then "active" else "")
  ++ dquote ++ ">" ++ esc w ++ "</span>".

Fixpoint spans (activeIdx : Z) (idx : Z) (ws : list string) : list string :=
  match ws with
  | [] => []
  | w :: rest => span (idx =? activeIdx) w :: spans activeIdx (idx + 1) rest
  end.

(** [renderCue(cue, t)]: the value it assigns to [lineEl.innerHTML]. *)
Definition renderCue (c : cue) (t : float) : string :=
  let text := js_trim (text c) in
  if is_empty text then ""
  else
    let words := js_words text in
    match words with
    | [] => esc text
    | _ =>
        join " " (spans (activeIdx c t (List.length words)) 0 words)
    end.

(** [tick], for the current time [t]: [innerHTML] before and after. *)
Definition tick (cues : list cue) (t : float) (innerHTML : string) : string :=
  let idx := findCueIndex cues t in
  if 0 <=? idx
  then match nth_error cues (Z.to_nat idx) with
       | Some c => renderCue c t
       | None => innerHTML
       end
  else innerHTML.

(* ================================================================== *)
(** ** Vocabulary of the statements *)

Close Scope string_scope.
Close Scope Z_scope.
Open Scope Q_scope.

(** *** Client *)

(** A failure after which another attempt is due while attempts remain: an
    HTTP error with one of the six statuses, a timeout, a connection
    error. *)
Definition retry_wanted (e : exn) : bool :=
  if isinstance e HTTPError
  then status_in (exn_status e) [408; 429; 500; 502; 503; 504]%Z
  else isinstance e Timeout || isinstance e ConnectionError.

(** The sleep between attempt [n] and attempt [n + 1]. *)
Definition backoff (n : nat) : float :=
  Float.mul LYRICS_BACKOFF_SECONDS (Float.of_int (Z.of_nat n)).

(** The events of [n] attempts with the sleeps between them. *)
Fixpoint attempts_trace (url : string) (timeout_seconds : Z) (n : nat) : trace :=
  match n with
  | O => []
  | S O => [EvGet url timeout_seconds]
  | S m =>
      attempts_trace url timeout_seconds m
      ++ [EvSleep (backoff m); EvGet url timeout_seconds]
  end.

(** *** Parser *)

(** The number a string of decimal digits denotes, most significant first. *)
Fixpoint digits_value_from (acc : Z) (s : string) : Z :=
  match s with
  | EmptyString => acc
  | String c r => digits_value_from (10 * acc + digit_value c) r
  end.

Definition digits_value (s : string) : Z := digits_value_from 0 s.

Fixpoint all_digits (s : string) : bool :=
  match s with
  | EmptyString => true
  | String c r => is_digit c && all_digits r
  end.


(** The fraction, padded on the right with zeros to three digits, as a
    number of milliseconds; no fraction counts as [0]. *)
Definition millis_of (fraction : option string) : Z :=
  digits_value
    (substring 0 3 (match fraction with Some f => f | None => "0" end ++ "000")).

(** [minutes*60 + seconds + millis/1000]. *)
Definition ts_time (ts : ts_match) : Q :=
  inject_Z (digits_value (ts_minutes ts) * 60 + digits_value (ts_seconds ts))
  + inject_Z (millis_of (ts_fraction ts)) / 1000.

(** What the pattern guarantees of the groups of a match. *)
Definition ts_wf (ts : ts_match) : Prop :=
  all_digits (ts_minutes ts) = true /\
  (1 <= String.length (ts_minutes ts) <= 2)%nat /\
  all_digits (ts_seconds ts) = true /\
  String.length (ts_seconds ts) = 2%nat /\
  match ts_fraction ts with
  | Some f => all_digits f = true /\ (1 <= String.length f <= 3)%nat
  | None => True
  end.

(** The pairs one line contributes, written without the error plumbing: to
    be compared with [cues_of_line]. *)
Definition line_cues (raw_line : string) : list (float * string) :=
  let line := py_strip raw_line in
  match line_pattern_match line with
  | Some group5 =>
      let lyric_text := lyric_text_of group5 in
      if is_empty lyric_text then []
      else map (fun ts => (Qred (ts_time ts), lyric_text)) (ts_finditer line)
  | None => []
  end.

Definition leading_space (space : ascii -> bool) (s : string) : bool :=
  match s with
  | String c _ => space c
  | EmptyString => false
  end.

Fixpoint trailing_space (space : ascii -> bool) (s : string) : bool :=
  match s with
  | EmptyString => false
  | String c EmptyString => space c
  | String _ r => trailing_space space r
  end.

Definition by_time (a b : float * string) : Prop := fst a <= fst b.

Definition at_time (t : Q) (c : float * string) : bool := Float.eqb (fst c) t.

(** No element equals the one before it, [last] standing before the
    first. *)
Fixpoint no_repeat_after (last : option (float * string))
    (l : list (float * string)) : Prop :=
  match l with
  | [] => True
  | x :: r =>
      match last with
      | Some p => cue_eqb x p = false
      | None => True
      end /\ no_repeat_after (Some x) r
  end.

(** *** Cues *)

(** The window of a cue contains the time [t]. *)
Definition in_window (c : cue) (t : Q) : Prop := start c <= t /\ t < end_ c.

Definition by_start (a b : cue) : Prop := start a <= start b.


Definition clamp (x lo hi : Q) : Q := Qmin hi (Qmax lo x).

(** [progress] of [renderCue], as the statements write it. *)
Definition progress (c : cue) (t : Q) : Q :=
  clamp ((t - start c) / Qmax 0.15 (end_ c - start c)) 0 0.999.

(** *** Sample inputs *)

Definition sample_quote (s : string) : string := s.
Definition sample_repr (j : json) : string := "?"%string.

(** Both searches answer, with nothing. *)
Definition sample_net_empty (url : string) (k : nat) : result json :=
  if String.eqb url (lrclib_url sample_quote "zzz-no-such-song-zzz")
  then Ok (JArray [])
  else Ok (JObject [("data"%string, JArray [])]).



(** Two HTTP 503 answers, then a payload. *)
Definition sample_net_503 (url : string) (k : nat) : result json :=
  match k with
  | 0%nat | 1%nat => Raise (Exn HTTPError "503 Server Error" (Some 503%Z))
  | _ => Ok (JObject [("data"%string, JArray [])])
  end.

Definition sample_synced : list (float * string) :=
  [(Float.lit 1.5, "hello"%string); (Float.lit 3.0, "world"%string)].

Definition sample_cues : list cue :=
  [Cue (Float.lit 1.5) (Float.lit 2.95) "hello"; Cue (Float.lit 3.0) (Float.lit 5.8) "world"].

(* ================================================================== *)
(** ** Input validation: [is_supported_video] *)

Definition SUPPORTED_EXTENSIONS : list string :=
  ["mp4"; "mov"; "webm"; "m4v"; "ogg"]%string.

(** [c in s] for a one-character [c]. *)
Fixpoint contains_char (c : ascii) (s : string) : bool :=
  match s with
  | EmptyString => false
  | String d r => Ascii.eqb d c || contains_char c r
  end.

(** [s.rsplit(c, 1)[-1]]: what follows the last [c], or all of [s] when it
    has none. *)
Fixpoint after_last (c : ascii) (s : string) : string :=
  match s with
  | EmptyString => EmptyString
  | String d r =>
      if contains_char c r then after_last c r
      else if Ascii.eqb d c then r
      else s
  end.

Definition is_supported_video (filename mime_type : string) : bool :=
  let extension :=
    if contains_char "." filename then py_lower (after_last "." filename)
    else ""%string in
  let mime_ok :=
    if negb (is_empty mime_type) then String.prefix "video/" mime_type else false in
  existsb (String.eqb extension) SUPPORTED_EXTENSIONS && mime_ok.

(* ================================================================== *)
(** ** Input validation: [extract_youtube_video_id] *)

(** The parts of [urlparse]'s result that the code reads. *)
Record parsed_url := ParsedUrl {
  netloc : string;
  path : string;
  query : string
}.

(** [\w] on one code point below 256: letters, digits and other numeric
    characters, and the underscore. *)
Definition is_word_char (c : ascii) : bool :=
  let n := code c in
  between 48 57 n || between 65 90 n || between 97 122 n || (n =? 95)%nat
  || (n =? 170)%nat || (n =? 178)%nat || (n =? 179)%nat || (n =? 181)%nat
  || (n =? 185)%nat || (n =? 186)%nat || between 188 190 n
  || between 192 214 n || between 216 246 n || between 248 255 n.

(** One character of the class [[\w-]]. *)
Definition is_id_char (c : ascii) : bool := is_word_char c || Ascii.eqb c "-".

Fixpoint all_chars (p : ascii -> bool) (s : string) : bool :=
  match s with
  | EmptyString => true
  | String c r => p c && all_chars p r
  end.

(** [re.fullmatch(r"[\w-]{11}", s)] as a truth value. *)
Definition fullmatch_video_id (s : string) : bool :=
  (String.length s =? 11)%nat && all_chars is_id_char s.

(** [s.split(c)[0]]: what precedes the first [c]. *)
Fixpoint before_first (c : ascii) (s : string) : string :=
  match s with
  | EmptyString => EmptyString
  | String d r => if Ascii.eqb d c then EmptyString else String d (before_first c r)
  end.

(** [s.split(c, 1)[1]] for an [s] that has a [c]: what follows the first
    [c]. *)
Fixpoint after_first (c : ascii) (s : string) : string :=
  match s with
  | EmptyString => EmptyString
  | String d r => if Ascii.eqb d c then r else after_first c r
  end.

(** [s.strip("/")]. *)
Definition strip_slashes (s : string) : string :=
  strip (fun c => Ascii.eqb c "/") s.

Section YouTube.

(** [urlparse], [None] standing for a raised exception, and [parse_qs]. *)
Variable urlparse : string -> option parsed_url.
Variable parse_qs : string -> list (string * list string).

(** [parse_qs(q).get("v", [None])[0]]. *)
Definition query_v (q : string) : result (option string) :=
  match find (fun kv => String.eqb (fst kv) "v") (parse_qs q) with
  | None => Ok None
  | Some (_, v :: _) => Ok (Some v)
  | Some (_, []) => Raise (Exn IndexError "list index out of range" None)
  end.

Definition extract_youtube_video_id (url : string) : result (option string) :=
  if is_empty url then Ok None
  else
    let raw := py_strip url in
    if is_empty raw then Ok None
    else
      let raw :=
        if String.prefix "http://" raw || String.prefix "https://" raw then raw
        else ("https://" ++ raw)%string in
      match urlparse raw with
      | None => Ok None
      | Some parsed =>
          let host := py_lower (netloc parsed) in
          let host :=
            if String.prefix "www." host
            then substring 4 (String.length host - 4) host
            else host in
          (video_id <-
             (if String.eqb host "youtu.be" then
                Ok (Some (before_first "/" (strip_slashes (path parsed))))
              else if existsb (String.eqb host)
                        ["youtube.com"; "m.youtube.com"; "music.youtube.com"]%string
              then
                let path := strip_slashes (path parsed) in
                if String.eqb path "watch" then query_v (query parsed)
                else if String.prefix "shorts/" path then
                  Ok (Some (before_first "/" (after_first "/" path)))
                else if String.prefix "embed/" path then
                  Ok (Some (before_first "/" (after_first "/" path)))
                else Ok None
              else Ok None) ;;
           match video_id with
           | None => Ok None
           | Some video_id =>
               if is_empty video_id then Ok None
               else
                 let video_id := py_strip video_id in
                 if fullmatch_video_id video_id then Ok (Some video_id)
                 else Ok None
           end)%result
      end.

Definition is_youtube_url (url : string) : result bool :=
  (r <- extract_youtube_video_id url ;;
   Ok (match r with Some _ => true | None => false end))%result.

End YouTube.

(* ================================================================== *)
(** ** Synced lyrics lookup: [fetch_synced_lyrics_lrc] *)

Section SyncedLookup.

Variable quote : string -> string.
Variable py_repr : json -> string.
Variable net : string -> nat -> result json.

Definition _search_lrclib_candidates (song_name : string) : M json :=
  (payload <- get_json net (lrclib_url quote song_name) ;;
   ret (if is_list payload then payload else JArray []))%io.

(** The field [key] of [item] as the loops compare it:
    [str(item.get(key, "")).strip().lower()]. *)
Definition field_lower (item : json) (key : string) : result string :=
  (v <- py_get item key (JString "") ;;
   Ok (py_lower (py_strip (py_str py_repr v))))%result.

(** The first loop of [_pick_best_lrclib_candidate]: the first item whose
    track name and artist name both match. *)
Fixpoint find_title_artist (t a : string) (items : list json)
    : result (option json) :=
  match items with
  | [] => Ok None
  | item :: rest =>
      (track_name <- field_lower item "trackName" ;;
       artist_name <- field_lower item "artistName" ;;
       if String.eqb track_name t && String.eqb artist_name a then Ok (Some item)
       else find_title_artist t a rest)%result
  end.

(** Truth value of an [Optional[str]]. *)
Definition given (s : option string) : bool :=
  match s with
  | Some s => negb (is_empty s)
  | None => false
  end.

Definition text_of (s : option string) : string :=
  match s with
  | Some s => s
  | None => ""%string
  end.

Definition _pick_best_lrclib_candidate (candidates : json) (song_name : string)
    (preferred_title preferred_artist : option string) : result (option json) :=
  if negb (truthy candidates) then Ok None
  else
    (by_both <-
       (if given preferred_title && given preferred_artist then
          let t := py_lower (py_strip (text_of preferred_title)) in
          let a := py_lower (py_strip (text_of preferred_artist)) in
          items <- py_iter candidates ;;
          find_title_artist t a items
        else Ok None) ;;
     match by_both with
     | Some item => Ok (Some item)
     | None =>
         by_title <-
           (if given preferred_title then
              let t := py_lower (py_strip (text_of preferred_title)) in
              items <- py_iter candidates ;;
              find_exact py_repr "trackName" t items
            else Ok None) ;;
         match by_title with
         | Some item => Ok (Some item)
         | None =>
             let target_lower := py_lower (py_strip song_name) in
             items <- py_iter candidates ;;
             by_song <- find_exact py_repr "trackName" target_lower items ;;
             match by_song with
             | Some item => Ok (Some item)
             | None =>
                 first <- py_first candidates ;;
                 Ok (Some first)
             end
         end
     end)%result.

Definition fetch_synced_lyrics_lrc (song_name : string)
    (preferred_title preferred_artist : option string) : M (option string) :=
  (candidates <- _search_lrclib_candidates song_name ;;
   chosen <- lift (_pick_best_lrclib_candidate candidates song_name
                     preferred_title preferred_artist) ;;
   match chosen with
   | None => ret None
   | Some chosen =>
       if negb (truthy chosen) then ret None
       else
         v <- lift (py_get chosen "syncedLyrics" (JString "")) ;;
         let synced := py_strip (py_str py_repr v) in
         ret (if is_empty synced then None else Some synced)
   end)%io.

End SyncedLookup.

(* ================================================================== *)
(** ** Vocabulary of the further statements *)

(** What every line of [normalize_lyrics_lines] satisfies. *)
Definition clean_line (line : string) : Prop :=
  line <> ""%string /\ py_strip line = line /\
  contains_char (ascii_of_nat 10) line = false /\
  contains_char (ascii_of_nat 13) line = false.

(** The text [extract_youtube_video_id] hands to [urlparse]. *)
Definition normalised_url (url : string) : string :=
  let raw := py_strip url in
  if String.prefix "http://" raw || String.prefix "https://" raw then raw
  else ("https://" ++ raw)%string.

(** The host it compares: in lower case, without a leading [www.]. *)
Definition url_host (parsed : parsed_url) : string :=
  let host := py_lower (netloc parsed) in
  if String.prefix "www." host
  then substring 4 (String.length host - 4) host
  else host.

Definition is_youtube_host (host : string) : bool :=
  String.eqb host "youtu.be"
  || existsb (String.eqb host) ["youtube.com"; "m.youtube.com"; "music.youtube.com"]%string.

(** *** Lookups *)

(** Every run of [m] appends events to the trace: between [lo] and [hi]
    requests, at most [s] sleeps, each event one that [ok] allows. *)
Definition spends {A : Type} (ok : event -> Prop) (lo hi s : nat) (m : M A) : Prop :=
  forall tr : trace, exists ev : trace,
    snd (m tr) = (tr ++ ev)%list /\
    (lo <= requests_made ev <= hi)%nat /\
    (sleeps_made ev <= s)%nat /\
    Forall ok ev.

(** What [m] returns, when it returns, satisfies [P]. *)
Definition returns {A : Type} (P : A -> Prop) (m : M A) : Prop :=
  forall (tr : trace) (a : A) (tr' : trace), m tr = (Ok a, tr') -> P a.

(** A text that is not empty and has no white space at either end. *)
Definition clean_text (s : string) : Prop := s <> ""%string /\ py_strip s = s.

(** The three texts of a resolved song: lyrics, title, artist. *)
Definition all_clean (r : string * string * string) : Prop :=
  clean_text (fst (fst r)) /\ clean_text (snd (fst r)) /\ clean_text (snd r).

(** A request of the lookup: with the timeout of 12 seconds and to one of
    the given URLs; a sleep of the lookup: 1.2 or 2.4 seconds. *)
Definition lookup_event (allowed : string -> Prop) (e : event) : Prop :=
  match e with
  | EvGet url timeout_seconds =>
      timeout_seconds = LYRICS_TIMEOUT_SECONDS /\ allowed url
  | EvSleep seconds => seconds = Float.lit 1.2 \/ seconds = Float.lit 2.4
  end.

(** The URLs of the first provider for a song: its search for the song and
    its lyrics of some artist and title. *)
Definition primary_url (quote : string -> string) (song_name url : string) : Prop :=
  url = suggest_url quote song_name \/
  exists artist title : string, url = lyrics_url quote artist title.

(** The URL of the second provider for a song: its search. *)
Definition fallback_url (quote : string -> string) (song_name url : string) : Prop :=
  url = lrclib_url quote song_name.

(** [item] is the first element of [items] that satisfies [p]. *)
Definition first_match (p : json -> Prop) (items : list json) (item : json) : Prop :=
  exists before after : list json,
    items = (before ++ item :: after)%list /\ p item /\ Forall (fun x => ~ p x) before.

Definition no_match (p : json -> Prop) (items : list json) : Prop :=
  Forall (fun x => ~ p x) items.

(** The choice both providers' loops make: the first item whose field [key]
    is [target], else the first item. *)
Definition exact_or_first (p : json -> Prop) (items : list json) (item : json) : Prop :=
  first_match p items item \/ (no_match p items /\ hd_error items = Some item).

(** *** Sample inputs of the further statements *)

Definition sample_parse (raw : string) : option parsed_url :=
  if String.eqb raw "https://youtu.be/dQw4w9WgXcQ"
  then Some (ParsedUrl "youtu.be" "/dQw4w9WgXcQ" "")
  else if String.eqb raw "https://www.youtube.com/watch?v=dQw4w9WgXcQ"
  then Some (ParsedUrl "www.youtube.com" "/watch" "v=dQw4w9WgXcQ")
  else if String.eqb raw "https://m.youtube.com/shorts/dQw4w9WgXcQ"
  then Some (ParsedUrl "m.youtube.com" "/shorts/dQw4w9WgXcQ" "")
  else if String.eqb raw "https://music.youtube.com/embed/dQw4w9WgXcQ/"
  then Some (ParsedUrl "music.youtube.com" "/embed/dQw4w9WgXcQ/" "")
  else None.

Definition sample_parse_qs (q : string) : list (string * list string) :=
  if String.eqb q "v=dQw4w9WgXcQ" then [("v", ["dQw4w9WgXcQ"])]%string else [].

Definition sample_lrc : string :=
  ("[00:01.50]hello" ++ LF ++ "[00:03.00]world")%string.

Definition sample_track : json :=
  JObject [("trackName", JString "Hello"); ("artistName", JString "Adele");
           ("plainLyrics", JString "");
           ("syncedLyrics", JString "[00:01.50]hello")]%string.

Definition sample_other_track : json :=
  JObject [("trackName", JString "Hello Again"); ("artistName", JString "Neil");
           ("plainLyrics", JString "again");
           ("syncedLyrics", JString "")]%string.

(** The first provider knows the song; the second lists two tracks. *)
Definition sample_net_found (url : string) (k : nat) : result json :=
  if String.eqb url (suggest_url sample_quote "hello")
  then Ok (JObject [("data",
                     JArray [JObject [("title", JString "Hello Again");
                                      ("artist", JObject [("name", JString "Neil")])];
                             JObject [("title", JString " Hello ");
                                      ("artist", JObject [("name", JString "Adele")])]])])%string
  else if String.eqb url (lyrics_url sample_quote "Adele" "Hello")
  then Ok (JObject [("lyrics", JString " Hello, it is me ")])%string
  else Ok (JArray [sample_other_track; sample_track]).

(* ================================================================== *)
(** ** Facts about numbers *)

Section FloatFacts.

Lemma lit_eq (q : Q) : Float.lit q == q.
Proof. apply Qred_correct. Qed.


Lemma sub_eq (a b : Q) : Float.sub a b == a - b.
Proof. apply Qred_correct. Qed.

Lemma mul_eq (a b : Q) : Float.mul a b == a * b.
Proof. apply Qred_correct. Qed.

Lemma div_eq (a b : Q) : Float.div a b == a / b.
Proof. apply Qred_correct. Qed.

Lemma leb_le (a b : Q) : Float.leb a b = true <-> a <= b.
Proof. apply Qle_bool_iff. Qed.

Lemma ltb_lt (a b : Q) : Float.ltb a b = true <-> a < b.
Proof.
  unfold Float.ltb. rewrite negb_true_iff.
  destruct (Qle_bool b a) eqn:E.
  - apply Qle_bool_iff in E. split; [discriminate | intro H; lra].
  - split; [intros _ | reflexivity].
    apply Qnot_le_lt. intro H. apply Qle_bool_iff in H. congruence.
Qed.

Lemma ltb_ge (a b : Q) : Float.ltb a b = false <-> b <= a.
Proof.
  unfold Float.ltb. rewrite negb_false_iff. apply Qle_bool_iff.
Qed.

Lemma max_eq (a b : Q) : Float.max a b == Qmax a b.
Proof.
  unfold Float.max. destruct (Float.ltb a b) eqn:E.
  - apply ltb_lt in E. rewrite Q.max_r; [reflexivity | lra].
  - apply ltb_ge in E. rewrite Q.max_l; [reflexivity | lra].
Qed.

Lemma min_eq (a b : Q) : Float.min a b == Qmin a b.
Proof.
  unfold Float.min. destruct (Float.ltb b a) eqn:E.
  - apply ltb_lt in E. rewrite Q.min_r; [reflexivity | lra].
  - apply ltb_ge in E. rewrite Q.min_l; [reflexivity | lra].
Qed.

Lemma Qfloor_unique (q : Q) (z : Z) :
  inject_Z z <= q -> q < inject_Z (z + 1) -> Qfloor q = z.
Proof.
  intros Hlo Hhi.
  pose proof (Qfloor_le q) as H1. pose proof (Qlt_floor q) as H2.
  assert (A : (z < Qfloor q + 1)%Z).
  { rewrite Zlt_Qlt. lra. }
  assert (B : (Qfloor q < z + 1)%Z).
  { rewrite Zlt_Qlt. lra. }
  lia.
Qed.



Lemma round_half_even_bounds (q : Q) :
  (Qfloor q <= Float.round_half_even q <= Qfloor q + 1)%Z.
Proof.
  unfold Float.round_half_even.
  destruct (Qcompare_spec (q - inject_Z (Qfloor q)) (1#2)); try lia.
  destruct (Z.even (Qfloor q)); lia.
Qed.

Lemma round_half_even_mono (p q : Q) :
  p <= q -> (Float.round_half_even p <= Float.round_half_even q)%Z.
Proof.
  intros Hpq.
  pose proof (Qfloor_resp_le _ _ Hpq) as Hf.
  destruct (Z.eq_dec (Qfloor p) (Qfloor q)) as [E | N].
  - unfold Float.round_half_even. rewrite E.
    destruct (Qcompare_spec (p - inject_Z (Qfloor q)) (1#2)) as [H1|H1|H1];
    destruct (Qcompare_spec (q - inject_Z (Qfloor q)) (1#2)) as [H2|H2|H2];
    try (destruct (Z.even (Qfloor q))); try lia; exfalso; lra.
  - pose proof (round_half_even_bounds p). pose proof (round_half_even_bounds q). lia.
Qed.



Lemma per_mille (a : Q) : a / 1000 == a * (1 # 1000).
Proof. field. Qed.

(** [round(x, 3)] as a number. *)
Lemma round3_eq (x : Q) :
  Float.round x 3 == inject_Z (Float.round_half_even (x * 1000)) * (1 # 1000).
Proof. unfold Float.round. rewrite Qred_correct. apply per_mille. Qed.


Lemma round3_mono (x y : Q) : x <= y -> Float.round x 3 <= Float.round y 3.
Proof.
  intros H. rewrite !round3_eq.
  assert (M : (Float.round_half_even (x * 1000) <= Float.round_half_even (y * 1000))%Z).
  { apply round_half_even_mono. lra. }
  rewrite Zle_Qle in M.
  revert M. generalize (inject_Z (Float.round_half_even (x * 1000))).
  generalize (inject_Z (Float.round_half_even (y * 1000))).
  intros a b M. lra.
Qed.




End FloatFacts.

(* ================================================================== *)
(** ** ProviderClient: retries and backoff *)

Lemma requests_made_app (tr tr' : trace) :
  requests_made (tr ++ tr') = (requests_made tr + requests_made tr')%nat.
Proof. unfold requests_made. rewrite filter_app, length_app. reflexivity. Qed.

Lemma sleeps_made_app (tr tr' : trace) :
  sleeps_made (tr ++ tr') = (sleeps_made tr + sleeps_made tr')%nat.
Proof. unfold sleeps_made. rewrite filter_app, length_app. reflexivity. Qed.

Lemma retry_loop_step (net : string -> nat -> result json) (url : string)
    (timeout : Z) (attempt : Z) (rest : list Z) (last : option exn) (tr : trace) :
  retry_loop net url timeout (attempt :: rest) last tr
  = match net url (requests_made tr) with
    | Ok v => (Ok v, tr ++ [EvGet url timeout])
    | Raise e =>
        if retry_wanted e && (attempt <? LYRICS_MAX_RETRIES)%Z
        then retry_loop net url timeout rest (Some e)
               (tr ++ [EvGet url timeout;
                       EvSleep (Float.mul LYRICS_BACKOFF_SECONDS (Float.of_int attempt))])
        else (Raise e, tr ++ [EvGet url timeout])
    end.
Proof.
  cbn [retry_loop]. unfold catch, http_get.
  destruct (net url (requests_made tr)) as [v | e]; [reflexivity |].
  unfold retry_wanted.
  destruct (isinstance e HTTPError).
  - unfold RETRYABLE_STATUS.
    destruct (status_in (exn_status e) [408; 429; 500; 502; 503; 504]%Z);
      destruct (attempt <? LYRICS_MAX_RETRIES)%Z; cbn [andb]; try reflexivity.
    unfold bind, sleep. rewrite <- app_assoc. reflexivity.
  - destruct (isinstance e Timeout || isinstance e ConnectionError); [| reflexivity].
    cbn [andb]. destruct (attempt <? LYRICS_MAX_RETRIES)%Z; [| reflexivity].
    unfold bind, sleep. rewrite <- app_assoc. reflexivity.
Qed.

Lemma backoff_linear (n : nat) : backoff n == 1.2 * inject_Z (Z.of_nat n).
Proof.
  unfold backoff, LYRICS_BACKOFF_SECONDS, Float.of_int.
  rewrite mul_eq, lit_eq. reflexivity.
Qed.

Lemma requests_after_retry (tr : trace) (url : string) (timeout : Z) (s : float) :
  requests_made (tr ++ [EvGet url timeout; EvSleep s]) = (requests_made tr + 1)%nat.
Proof. rewrite requests_made_app. reflexivity. Qed.

Lemma three_attempts (net : string -> nat -> result json) (url : string)
    (timeout : Z) (tr : trace) :
  _get_json_with_retries net url timeout tr
  = match net url (requests_made tr) with
    | Ok v => (Ok v, tr ++ attempts_trace url timeout 1)
    | Raise e0 =>
        if retry_wanted e0 then
          match net url (requests_made tr + 1)%nat with
          | Ok v => (Ok v, tr ++ attempts_trace url timeout 2)
          | Raise e1 =>
              if retry_wanted e1
              then (net url (requests_made tr + 2)%nat, tr ++ attempts_trace url timeout 3)
              else (Raise e1, tr ++ attempts_trace url timeout 2)
          end
        else (Raise e0, tr ++ attempts_trace url timeout 1)
    end.
Proof.
  unfold _get_json_with_retries.
  change (py_range 1 (LYRICS_MAX_RETRIES + 1)) with [1; 2; 3]%Z.
  rewrite retry_loop_step.
  destruct (net url (requests_made tr)) as [v0 | e0]; [reflexivity |].
  destruct (retry_wanted e0); [| reflexivity].
  cbn [andb]. change (1 <? LYRICS_MAX_RETRIES)%Z with true. cbv iota.
  rewrite retry_loop_step, requests_after_retry.
  destruct (net url (requests_made tr + 1)%nat) as [v1 | e1].
  { rewrite <- app_assoc. reflexivity. }
  destruct (retry_wanted e1).
  2:{ cbn [andb]. rewrite <- app_assoc. reflexivity. }
  cbn [andb]. change (2 <? LYRICS_MAX_RETRIES)%Z with true. cbv iota.
  rewrite retry_loop_step, !requests_after_retry.
  replace (requests_made tr + 1 + 1)%nat with (requests_made tr + 2)%nat by lia.
  change (3 <? LYRICS_MAX_RETRIES)%Z with false.
  destruct (net url (requests_made tr + 2)%nat) as [v2 | e2];
    rewrite ?andb_false_r, <- !app_assoc; reflexivity.
Qed.

(** C2.  [_get_json_with_retries] makes [n] HTTP attempts with
    [1 <= n <= 3]; its events are the [n] requests with a sleep of
    [1.2 * k] seconds between attempt [k] and attempt [k + 1]; every attempt
    before the last failed with an HTTP error of status 408, 429, 500, 502,
    503 or 504, or with a timeout or a connection error; it stops before the
    third attempt only on a success or on a failure of another kind; and its
    result is the outcome of the last attempt, a raised error being that very
    error.  So an HTTP error with another status is raised after one request
    and no sleep, and two HTTP 503 failures followed by a success make three
    requests and two sleeps (1.2 s and 2.4 s) and return the payload. *)
Theorem get_json_with_retries_spec :
  forall (net : string -> nat -> result json) (url : string) (timeout : Z) (tr : trace),
    (exists n : nat,
       (1 <= n <= 3)%nat /\
       _get_json_with_retries net url timeout tr
       = (net url (requests_made tr + (n - 1))%nat,
          (tr ++ attempts_trace url timeout n)%list) /\
       (forall k, (k < n - 1)%nat ->
          exists e, net url (requests_made tr + k)%nat = Raise e /\ retry_wanted e = true) /\
       ((n < 3)%nat ->
          forall e, net url (requests_made tr + (n - 1))%nat = Raise e ->
                    retry_wanted e = false) /\
       requests_made (attempts_trace url timeout n) = n /\
       sleeps_made (attempts_trace url timeout n) = (n - 1)%nat) /\
    (forall n : nat, backoff n == 1.2 * inject_Z (Z.of_nat n)) /\
    (forall e,
       net url (requests_made tr) = Raise e ->
       isinstance e HTTPError = true ->
       status_in (exn_status e) [408; 429; 500; 502; 503; 504]%Z = false ->
       _get_json_with_retries net url timeout tr
       = (Raise e, (tr ++ [EvGet url timeout])%list)) /\
    (forall e1 e2 v,
       net url (requests_made tr) = Raise e1 ->
       net url (requests_made tr + 1)%nat = Raise e2 ->
       net url (requests_made tr + 2)%nat = Ok v ->
       isinstance e1 HTTPError = true -> exn_status e1 = Some 503%Z ->
       isinstance e2 HTTPError = true -> exn_status e2 = Some 503%Z ->
       _get_json_with_retries net url timeout tr
       = (Ok v, (tr ++ [EvGet url timeout; EvSleep (Float.lit 1.2);
                        EvGet url timeout; EvSleep (Float.lit 2.4);
                        EvGet url timeout])%list)).
Proof.
  intros net url timeout tr. split; [| split; [| split]].
  - rewrite three_attempts.
    destruct (net url (requests_made tr)) as [v0 | e0] eqn:O0;
      [exists 1%nat
      | destruct (retry_wanted e0) eqn:R0;
        [destruct (net url (requests_made tr + 1)%nat) as [v1 | e1] eqn:O1;
         [exists 2%nat
         | destruct (retry_wanted e1) eqn:R1; [exists 3%nat | exists 2%nat]]
        | exists 1%nat]];
      cbn [Nat.sub]; rewrite ?Nat.add_0_r, ?O0, ?O1;
      (split; [lia |]); (split; [reflexivity |]);
      (split; [| split; [| split; reflexivity]]);
      try (intros _ e He; congruence); try lia;
      intros k Hk; destruct k as [| [| k]]; try lia;
      rewrite ?Nat.add_0_r; eexists; split; eassumption.
  - apply backoff_linear.
  - intros e O0 Hh Hs. rewrite three_attempts, O0.
    unfold retry_wanted. rewrite Hh, Hs. reflexivity.
  - intros e1 e2 v O0 O1 O2 H1 S1 H2 S2. rewrite three_attempts, O0, O1, O2.
    unfold retry_wanted. rewrite H1, S1, H2, S2. reflexivity.
Qed.

(* ================================================================== *)
(** ** LyricsResolver: error composition *)


Section ResolverFacts.

Variable quote : string -> string.
Variable py_repr : json -> string.
Variable net : string -> nat -> result json.





End ResolverFacts.

(* ================================================================== *)
(** ** LrcParser: timestamps, order and repeats *)

Lemma is_empty_length (s : string) : is_empty s = true <-> String.length s = 0%nat.
Proof. destruct s; simpl; split; congruence. Qed.

Lemma is_empty_eq (s : string) : is_empty s = true <-> s = ""%string.
Proof. destruct s; simpl; split; congruence. Qed.

Lemma take_digits_spec (k : nat) (s d r : string) :
  take_digits k s = (d, r) ->
  all_digits d = true /\ (String.length d <= k)%nat /\
  (String.length s = String.length d + String.length r)%nat.
Proof.
  revert s d r. induction k as [| k IH]; intros s d r H.
  - destruct s; simpl in H; injection H as <- <-; simpl; repeat split; lia.
  - destruct s as [| c s]; simpl in H.
    + injection H as <- <-. simpl. repeat split; lia.
    + destruct (is_digit c) eqn:D.
      * destruct (take_digits k s) as [d' r'] eqn:T. injection H as <- <-.
        destruct (IH _ _ _ T) as (A & L & Len). simpl. rewrite D, A.
        repeat split; simpl; lia.
      * injection H as <- <-. simpl. repeat split; lia.
Qed.

Lemma match_ts_spec (s r : string) (ts : ts_match) :
  match_ts s = Some (ts, r) ->
  ts_wf ts /\ (String.length r < String.length s)%nat.
Proof.
  unfold match_ts. intros H.
  destruct s as [| c0 s]; [discriminate |].
  destruct (Ascii.eqb c0 "[") eqn:E0.
  2:{ destruct c0 as [[] [] [] [] [] [] [] []]; try discriminate. }
  apply Ascii.eqb_eq in E0. subst c0.
  destruct (take_digits 2 s) as [mm r1] eqn:T1.
  destruct (take_digits_spec _ _ _ _ T1) as (A1 & L1 & Len1).
  destruct (is_empty mm) eqn:M; [discriminate |].
  assert (N1 : (1 <= String.length mm)%nat).
  { destruct mm; [discriminate | simpl; lia]. }
  destruct r1 as [| c1 r2]; [discriminate |].
  destruct (Ascii.eqb c1 ":") eqn:E1.
  2:{ destruct c1 as [[] [] [] [] [] [] [] []]; try discriminate. }
  apply Ascii.eqb_eq in E1. subst c1.
  destruct (take_digits 2 r2) as [ss r3] eqn:T2.
  destruct (take_digits_spec _ _ _ _ T2) as (A2 & L2 & Len2).
  destruct (String.length ss =? 2)%nat eqn:S2; [| discriminate].
  apply Nat.eqb_eq in S2. cbn [negb] in H.
  destruct r3 as [| c3 r4]; [discriminate |].
  destruct (Ascii.eqb c3 "]") eqn:E3.
  { apply Ascii.eqb_eq in E3. subst c3. injection H as <- <-.
    simpl in *. unfold ts_wf. simpl. repeat split; try assumption; lia. }
  destruct (Ascii.eqb c3 ".") eqn:E4.
  2:{ destruct c3 as [[] [] [] [] [] [] [] []]; try discriminate. }
  apply Ascii.eqb_eq in E4. subst c3.
  destruct (take_digits 3 r4) as [ff r5] eqn:T3.
  destruct (take_digits_spec _ _ _ _ T3) as (A3 & L3 & Len3).
  destruct (is_empty ff) eqn:F; [discriminate |].
  assert (N3 : (1 <= String.length ff)%nat).
  { destruct ff; [discriminate | simpl; lia]. }
  destruct r5 as [| c5 r6]; [discriminate |].
  destruct (Ascii.eqb c5 "]") eqn:E5.
  2:{ destruct c5 as [[] [] [] [] [] [] [] []]; try discriminate. }
  apply Ascii.eqb_eq in E5. subst c5. injection H as <- <-.
  simpl in *. unfold ts_wf. simpl. repeat split; try assumption; lia.
Qed.

Lemma finditer_wf (fuel : nat) (s : string) : Forall ts_wf (finditer fuel s).
Proof.
  revert s. induction fuel as [| fuel IH]; intros s; simpl; [constructor |].
  destruct (match_ts s) as [[m rest] |] eqn:M.
  - constructor; [exact (proj1 (match_ts_spec _ _ _ M)) | apply IH].
  - destruct s; [constructor | apply IH].
Qed.

Lemma int_digits_ok (s : string) (acc : Z) :
  all_digits s = true -> int_digits acc s = Ok (digits_value_from acc s).
Proof.
  revert acc. induction s as [| c s IH]; intros acc H; simpl in *; [reflexivity |].
  apply andb_true_iff in H. destruct H as [D A]. rewrite D. apply IH. exact A.
Qed.

Lemma py_int_ok (s : string) :
  all_digits s = true -> (1 <= String.length s)%nat -> py_int s = Ok (digits_value s).
Proof.
  intros A L. unfold py_int.
  destruct s; [simpl in L; lia |]. cbn [is_empty]. apply int_digits_ok. exact A.
Qed.

Lemma all_digits_app (a b : string) :
  all_digits (a ++ b) = all_digits a && all_digits b.
Proof.
  induction a as [| c a IH]; simpl; [reflexivity |].
  rewrite IH. apply andb_assoc.
Qed.

Lemma all_digits_prefix (n : nat) (s : string) :
  all_digits s = true -> all_digits (substring 0 n s) = true.
Proof.
  revert s. induction n as [| n IH]; intros s H.
  - destruct s; reflexivity.
  - destruct s as [| c s]; [reflexivity |]. simpl in *.
    apply andb_true_iff in H. destruct H as [D A]. rewrite D. apply IH. exact A.
Qed.

Lemma length_prefix (n : nat) (s : string) :
  (n <= String.length s)%nat -> String.length (substring 0 n s) = n.
Proof.
  revert s. induction n as [| n IH]; intros s H.
  - destruct s; reflexivity.
  - destruct s as [| c s]; simpl in *; [lia |]. rewrite IH; lia.
Qed.

Lemma length_app_string (a b : string) :
  String.length (a ++ b) = (String.length a + String.length b)%nat.
Proof. induction a as [| c a IH]; simpl; [reflexivity | rewrite IH; reflexivity]. Qed.

Lemma padded_fraction_ok (f : string) :
  all_digits f = true ->
  py_int (substring 0 3 (f ++ "000")) = Ok (millis_of (Some f)).
Proof.
  intros A. unfold millis_of. apply py_int_ok.
  - apply all_digits_prefix. rewrite all_digits_app, A. reflexivity.
  - rewrite length_prefix; [lia |].
    rewrite length_app_string. simpl. lia.
Qed.

Lemma total_seconds_ok (ts : ts_match) :
  ts_wf ts -> total_seconds ts = Ok (Qred (ts_time ts)).
Proof.
  intros (A1 & L1 & A2 & L2 & F). unfold total_seconds, rbind.
  rewrite (py_int_ok _ A1) by lia. rewrite (py_int_ok _ A2) by lia.
  assert (P : py_int (substring 0 3
                 (match ts_fraction ts with Some f => f | None => "0" end ++ "000"))
              = Ok (millis_of (ts_fraction ts))).
  { destruct (ts_fraction ts) as [f |]; [apply padded_fraction_ok; tauto | reflexivity]. }
  rewrite P. f_equal. unfold Float.add, Float.div, Float.of_int, Float.lit, ts_time.
  apply Qred_complete. rewrite !Qred_correct.
  setoid_replace 1000.0 with 1000 by reflexivity. reflexivity.
Qed.

Lemma rmap_total {A B} (f : A -> result B) (g : A -> B) (l : list A) :
  Forall (fun a => f a = Ok (g a)) l -> rmap f l = Ok (map g l).
Proof.
  induction 1 as [| a l Ha _ IH]; simpl; [reflexivity |].
  unfold rbind. rewrite Ha, IH. reflexivity.
Qed.

Lemma cues_of_line_eq (raw_line : string) :
  cues_of_line raw_line = Ok (line_cues raw_line).
Proof.
  unfold cues_of_line, line_cues.
  destruct (is_empty (py_strip raw_line)) eqn:E.
  { apply is_empty_eq in E. rewrite E. reflexivity. }
  destruct (line_pattern_match (py_strip raw_line)) as [group5 |]; [| reflexivity].
  destruct (is_empty (lyric_text_of group5)); [reflexivity |].
  apply rmap_total. unfold ts_finditer.
  eapply Forall_impl; [| apply finditer_wf].
  intros ts W. cbn beta. unfold rbind. rewrite (total_seconds_ok _ W). reflexivity.
Qed.

Lemma parse_lrc_eq (lrc_text : string) :
  parse_lrc_synced_lines lrc_text
  = Ok (if is_empty lrc_text then []
        else dedup_loop None
               (sort_by_time (concat (map line_cues (lrc_lines lrc_text))))).
Proof.
  unfold parse_lrc_synced_lines.
  destruct (is_empty lrc_text); [reflexivity |].
  rewrite (rmap_total cues_of_line line_cues).
  - reflexivity.
  - apply Forall_forall. intros l _. apply cues_of_line_eq.
Qed.





(** ** Stripped text *)

Section StripFacts.

Variable space : ascii -> bool.

Lemma lstrip_leading (s : string) : leading_space space (lstrip space s) = false.
Proof.
  induction s as [| c s IH]; simpl; [reflexivity |].
  destruct (space c) eqn:E; [exact IH | simpl; exact E].
Qed.

Lemma rstrip_trailing (s : string) : trailing_space space (rstrip space s) = false.
Proof.
  induction s as [| c s IH]; simpl; [reflexivity |].
  destruct (space c) eqn:E; destruct (rstrip space s) as [| d r] eqn:R;
    cbn [andb is_empty trailing_space]; try reflexivity; try exact E; exact IH.
Qed.

Lemma rstrip_leading (s : string) :
  leading_space space s = false -> leading_space space (rstrip space s) = false.
Proof.
  destruct s as [| c s]; simpl; [reflexivity |].
  intros E. rewrite E. simpl. exact E.
Qed.

Lemma lstrip_fixed (s : string) : leading_space space s = false -> lstrip space s = s.
Proof.
  destruct s as [| c s]; simpl; [reflexivity |]. intros E. rewrite E. reflexivity.
Qed.

Lemma rstrip_fixed (s : string) : trailing_space space s = false -> rstrip space s = s.
Proof.
  induction s as [| c s IH]; [reflexivity |].
  intros E. cbn [rstrip]. destruct s as [| d r].
  - simpl in *. rewrite E. reflexivity.
  - cbn [trailing_space] in E. rewrite (IH E). cbn [is_empty]. rewrite andb_false_r.
    reflexivity.
Qed.

Lemma strip_clean (s : string) :
  leading_space space (strip space s) = false /\
  trailing_space space (strip space s) = false /\
  strip space (strip space s) = strip space s.
Proof.
  assert (L : leading_space space (strip space s) = false).
  { unfold strip. apply rstrip_leading, lstrip_leading. }
  assert (T : trailing_space space (strip space s) = false).
  { unfold strip. apply rstrip_trailing. }
  repeat split; try assumption.
  unfold strip at 1. rewrite (lstrip_fixed _ L). apply rstrip_fixed. exact T.
Qed.

End StripFacts.

Lemma insert_by_time_perm (c : float * string) (l : list (float * string)) :
  Permutation (insert_by_time c l) (c :: l).
Proof.
  induction l as [| d l IH]; simpl; [reflexivity |].
  destruct (Float.leb (fst d) (fst c)); [| reflexivity].
  rewrite IH. apply perm_swap.
Qed.

Lemma sort_by_time_perm (l : list (float * string)) : Permutation (sort_by_time l) l.
Proof.
  unfold sort_by_time.
  assert (G : forall acc, Permutation (fold_left (fun a c => insert_by_time c a) l acc)
                                      (l ++ acc)).
  { induction l as [| c l IH]; intros acc; simpl; [reflexivity |].
    rewrite IH, insert_by_time_perm. symmetry. apply Permutation_middle. }
  rewrite G, app_nil_r. reflexivity.
Qed.

Lemma insert_by_time_sorted (c : float * string) (l : list (float * string)) :
  Sorted by_time l -> Sorted by_time (insert_by_time c l).
Proof.
  induction l as [| d l IH]; intros S; simpl.
  - repeat constructor.
  - destruct (Float.leb (fst d) (fst c)) eqn:E.
    + apply Sorted_inv in S. destruct S as [S H]. constructor; [apply IH; exact S |].
      destruct l as [| e l]; simpl.
      * constructor. apply leb_le. exact E.
      * destruct (Float.leb (fst e) (fst c)).
        -- constructor. apply HdRel_inv in H. exact H.
        -- constructor. apply leb_le. exact E.
    + constructor; [exact S |]. constructor. unfold by_time.
      destruct (Qlt_le_dec (fst c) (fst d)) as [L | G]; [apply Qlt_le_weak; exact L |].
      apply leb_le in G. congruence.
Qed.

Lemma by_time_trans : Relations_1.Transitive by_time.
Proof. intros a b c. unfold by_time. apply Qle_trans. Qed.

Lemma sort_by_time_sorted (l : list (float * string)) :
  StronglySorted by_time (sort_by_time l).
Proof.
  apply Sorted_StronglySorted; [exact by_time_trans |].
  unfold sort_by_time.
  assert (G : forall acc, Sorted by_time acc ->
                          Sorted by_time (fold_left (fun a c => insert_by_time c a) l acc)).
  { induction l as [| c l IH]; intros acc S; simpl; [exact S |].
    apply IH, insert_by_time_sorted, S. }
  apply G. constructor.
Qed.

Lemma dedup_loop_incl (last : option (float * string)) (l : list (float * string))
    (x : float * string) :
  In x (dedup_loop last l) -> In x l.
Proof.
  revert last. induction l as [| c l IH]; intros last H; simpl in H; [exact H |].
  apply in_app_or in H. destruct H as [H | H].
  - left. destruct (match last with Some p => negb (cue_eqb c p) | None => true end);
      simpl in H; tauto.
  - right. exact (IH _ H).
Qed.

Lemma dedup_loop_sorted (last : option (float * string)) (l : list (float * string)) :
  StronglySorted by_time l -> StronglySorted by_time (dedup_loop last l).
Proof.
  revert last. induction l as [| c l IH]; intros last S; simpl; [constructor |].
  apply StronglySorted_inv in S. destruct S as [S F].
  destruct (match last with Some p => negb (cue_eqb c p) | None => true end); simpl.
  - constructor; [apply IH; exact S |].
    rewrite Forall_forall in *. intros x Hx. apply F. exact (dedup_loop_incl _ _ _ Hx).
  - apply IH. exact S.
Qed.

Lemma cue_eqb_trans (a b c : float * string) :
  cue_eqb a b = true -> cue_eqb b c = true -> cue_eqb a c = true.
Proof.
  unfold cue_eqb, Float.eqb. rewrite !andb_true_iff.
  intros [A1 A2] [B1 B2]. split.
  - exact (Qeq_bool_trans _ _ _ A1 B1).
  - apply String.eqb_eq in A2, B2. apply String.eqb_eq. congruence.
Qed.

Lemma no_repeat_after_weaken (p q : float * string) (l : list (float * string)) :
  cue_eqb q p = true -> no_repeat_after (Some q) l -> no_repeat_after (Some p) l.
Proof.
  intros E. destruct l as [| x r]; simpl; [trivial |].
  intros [N R]. split; [| exact R].
  destruct (cue_eqb x p) eqn:X; [| reflexivity].
  assert (T : cue_eqb x q = true).
  { apply (cue_eqb_trans x p q X).
    unfold cue_eqb, Float.eqb in *. apply andb_true_iff in E. destruct E as [E1 E2].
    apply andb_true_iff. split.
    - apply Qeq_bool_sym. exact E1.
    - apply String.eqb_eq in E2. apply String.eqb_eq. congruence. }
  congruence.
Qed.

Lemma dedup_loop_no_repeat (last : option (float * string)) (l : list (float * string)) :
  no_repeat_after last (dedup_loop last l).
Proof.
  revert last. induction l as [| c l IH]; intros last; simpl; [trivial |].
  destruct last as [p |].
  - destruct (cue_eqb c p) eqn:E; simpl.
    + apply (no_repeat_after_weaken p c); [exact E | apply IH].
    + split; [exact E | apply IH].
  - simpl. split; [trivial | apply IH].
Qed.

Lemma no_repeat_after_nth (last : option (float * string)) (l : list (float * string))
    (i : nat) (a b : float * string) :
  no_repeat_after last l ->
  nth_error l i = Some a -> nth_error l (S i) = Some b -> cue_eqb b a = false.
Proof.
  revert last i. induction l as [| x r IH]; intros last i N Ha Hb; [destruct i; discriminate |].
  destruct N as [_ N]. destruct i as [| i]; simpl in Ha, Hb.
  - injection Ha as <-. destruct r as [| y r]; [discriminate |].
    injection Hb as <-. exact (proj1 N).
  - exact (IH _ _ N Ha Hb).
Qed.

Lemma digits_value_from_nonneg (s : string) (acc : Z) :
  (0 <= acc)%Z -> (0 <= digits_value_from acc s)%Z.
Proof.
  revert acc. induction s as [| c s IH]; intros acc H;
    cbn [digits_value_from]; [exact H |].
  apply IH. unfold digit_value. lia.
Qed.

Lemma seconds_nonneg (a m : Z) :
  (0 <= a)%Z -> (0 <= m)%Z -> 0 <= inject_Z a + inject_Z m / 1000.
Proof.
  intros A M. rewrite per_mille.
  rewrite Zle_Qle in A, M. revert A M.
  generalize (inject_Z a), (inject_Z m). intros x y A M.
  change (inject_Z 0) with 0 in A, M. lra.
Qed.

Lemma ts_time_nonneg (ts : ts_match) : 0 <= ts_time ts.
Proof.
  unfold ts_time, millis_of, digits_value.
  apply seconds_nonneg.
  - assert (A : (0 <= digits_value_from 0 (ts_minutes ts))%Z)
      by (apply digits_value_from_nonneg; lia).
    assert (B : (0 <= digits_value_from 0 (ts_seconds ts))%Z)
      by (apply digits_value_from_nonneg; lia).
    lia.
  - apply digits_value_from_nonneg. lia.
Qed.

Lemma line_cues_wellformed (raw_line : string) (t : float) (txt : string) :
  In (t, txt) (line_cues raw_line) ->
  txt <> ""%string /\ py_strip txt = txt /\
  leading_space py_isspace txt = false /\ trailing_space py_isspace txt = false /\
  exists ts, In ts (ts_finditer (py_strip raw_line)) /\ t = Qred (ts_time ts).
Proof.
  unfold line_cues.
  destruct (line_pattern_match (py_strip raw_line)) as [group5 |]; [| intros []].
  destruct (is_empty (lyric_text_of group5)) eqn:E; [intros [] |].
  intros H. apply in_map_iff in H. destruct H as (ts & Heq & Hin).
  injection Heq as <- <-.
  unfold lyric_text_of in *. unfold py_strip in *.
  destruct (strip_clean py_isspace
              (match group5 with Some g => g | None => ""%string end)) as (L & T & I).
  split; [| split; [| split; [| split]]]; try assumption.
  - intros N. rewrite N in E. discriminate.
  - exists ts. split; [exact Hin | reflexivity].
Qed.

Lemma parse_lrc_in (lrc_text : string) (cues : list (float * string))
    (x : float * string) :
  parse_lrc_synced_lines lrc_text = Ok cues -> In x cues ->
  exists raw_line, In raw_line (lrc_lines lrc_text) /\ In x (line_cues raw_line).
Proof.
  rewrite parse_lrc_eq. intros H Hin. injection H as <-.
  destruct (is_empty lrc_text); [destruct Hin |].
  apply dedup_loop_incl in Hin.
  apply (Permutation_in _ (sort_by_time_perm _)) in Hin.
  apply in_concat in Hin. destruct Hin as (l & Hl & Hx).
  apply in_map_iff in Hl. destruct Hl as (raw & <- & Hraw).
  exists raw. split; assumption.
Qed.

(** C9.  Every (time, text) pair that [parse_lrc_synced_lines] returns has
    a text that is not empty and has no white space at either end (stripping
    it changes nothing), and a time that is not negative, being
    [minutes*60 + seconds + millis/1000] of a matched timestamp.  A line that
    matches the line pattern but whose text is empty after stripping appends
    no pair. *)
Theorem parse_lrc_pairs_wellformed :
  (forall (lrc_text : string) (cues : list (float * string)) (t : float) (txt : string),
     parse_lrc_synced_lines lrc_text = Ok cues -> In (t, txt) cues ->
     txt <> ""%string /\
     leading_space py_isspace txt = false /\
     trailing_space py_isspace txt = false /\
     py_strip txt = txt /\
     0 <= t /\
     exists ts, t == ts_time ts) /\
  (forall (raw_line : string) (group5 : option string),
     line_pattern_match (py_strip raw_line) = Some group5 ->
     lyric_text_of group5 = ""%string ->
     cues_of_line raw_line = Ok []).
Proof.
  split.
  - intros lrc_text cues t txt H Hin.
    destruct (parse_lrc_in _ _ _ H Hin) as (raw & _ & Hx).
    destruct (line_cues_wellformed _ _ _ Hx) as (N & I & L & T & ts & _ & ->).
    repeat split; try assumption.
    + rewrite Qred_correct. apply ts_time_nonneg.
    + exists ts. apply Qred_correct.
  - intros raw_line group5 M E. rewrite cues_of_line_eq. unfold line_cues.
    rewrite M, E. reflexivity.
Qed.

(** What does hold of the output: ascending times, and no pair equal to the
    pair just before it. *)
Lemma parse_lrc_sorted_no_adjacent_repeat (lrc_text : string)
    (cues : list (float * string)) :
  parse_lrc_synced_lines lrc_text = Ok cues ->
  StronglySorted by_time cues /\
  forall i a b, nth_error cues i = Some a -> nth_error cues (S i) = Some b ->
                cue_eqb b a = false.
Proof.
  rewrite parse_lrc_eq. intros H. injection H as <-.
  destruct (is_empty lrc_text).
  - split; [constructor | intros [| i] a b Ha; discriminate].
  - split.
    + apply dedup_loop_sorted, sort_by_time_sorted.
    + intros i a b. apply (no_repeat_after_nth None). apply dedup_loop_no_repeat.
Qed.

(** C6.  The parse of three lines with the same timestamp and the texts
    a, b, a keeps all three pairs: the two equal pairs are not next to each
    other after the sort on the time alone, so the loop that drops a pair
    equal to the one before it drops neither.  The output has a repeated
    (time, text) pair, and the cue list built from it has two cues with the
    same (start, text). *)
Theorem parse_lrc_keeps_separated_repeats :
  parse_lrc_synced_lines
    ("[00:01.00]a" ++ LF ++ "[00:01.00]b" ++ LF ++ "[00:01.00]a")
  = Ok [(Float.lit 1, "a"%string); (Float.lit 1, "b"%string); (Float.lit 1, "a"%string)] /\
  ~ NoDup [(Float.lit 1, "a"%string); (Float.lit 1, "b"%string); (Float.lit 1, "a"%string)] /\
  map (fun c => (start c, text c))
      (_build_overlay_cues [] FALLBACK_SECONDS_PER_LINE
         (Some [(Float.lit 1, "a"%string); (Float.lit 1, "b"%string);
                (Float.lit 1, "a"%string)]))
  = [(Float.lit 1, "a"%string); (Float.lit 1, "b"%string); (Float.lit 1, "a"%string)].
Proof.
  split; [vm_compute; reflexivity | split; [| vm_compute; reflexivity]].
  intros N. inversion N as [| x l Hnot _]. apply Hnot. right. left. reflexivity.
Qed.

(** ** The fuel of the two scans is enough *)

Lemma skip_ts_stops (fuel : nat) (s : string) :
  (String.length s <= fuel)%nat -> match_ts (skip_ts fuel s) = None.
Proof.
  revert s. induction fuel as [| fuel IH]; intros s L.
  - destruct s; [reflexivity | simpl in L; lia].
  - simpl. destruct (match_ts s) as [[m rest] |] eqn:M; [| exact M].
    apply IH. pose proof (proj2 (match_ts_spec _ _ _ M)). lia.
Qed.

Lemma finditer_enough (n fuel : nat) (s : string) :
  (String.length s <= n)%nat -> (n <= fuel)%nat -> finditer fuel s = finditer n s.
Proof.
  revert fuel s. induction n as [| n IH]; intros fuel s L F.
  - destruct s; [| simpl in L; lia]. destruct fuel; reflexivity.
  - destruct fuel as [| fuel]; [lia |]. simpl.
    destruct (match_ts s) as [[m rest] |] eqn:M.
    + f_equal. apply IH; [| lia].
      pose proof (proj2 (match_ts_spec _ _ _ M)). lia.
    + destruct s as [| c r]; [reflexivity |]. apply IH; [simpl in L; lia | lia].
Qed.

Lemma filter_none {A} (p : A -> bool) (l : list A) :
  (forall x, In x l -> p x = false) -> filter p l = [].
Proof.
  induction l as [| a l IH]; intros H; simpl; [reflexivity |].
  rewrite (H a (or_introl eq_refl)). apply IH. intros x Hx. apply H. right. exact Hx.
Qed.

Lemma insert_by_time_stable (t : Q) (c : float * string) (l : list (float * string)) :
  StronglySorted by_time l ->
  filter (at_time t) (insert_by_time c l)
  = filter (at_time t) l ++ (if at_time t c then [c] else []).
Proof.
  induction l as [| d l IH]; intros S; simpl.
  - destruct (at_time t c); reflexivity.
  - apply StronglySorted_inv in S. destruct S as [S F].
    destruct (Float.leb (fst d) (fst c)) eqn:E; simpl.
    + rewrite (IH S). destruct (at_time t d); reflexivity.
    + destruct (at_time t c) eqn:C; [| rewrite app_nil_r; reflexivity].
      assert (Lt : fst c < fst d).
      { apply Qnot_le_lt. intros G. apply leb_le in G. congruence. }
      unfold at_time, Float.eqb in C. apply Qeq_bool_eq in C.
      assert (Z : filter (at_time t) (d :: l) = []).
      { apply filter_none. intros x Hx. unfold at_time, Float.eqb.
        destruct (Qeq_bool (fst x) t) eqn:X; [| reflexivity].
        apply Qeq_bool_eq in X. exfalso.
        destruct Hx as [<- | Hx]; [lra |].
        rewrite Forall_forall in F. specialize (F x Hx). unfold by_time in F. lra. }
      simpl in Z. rewrite Z. reflexivity.
Qed.

Lemma sort_by_time_stable (t : Q) (l : list (float * string)) :
  filter (at_time t) (sort_by_time l) = filter (at_time t) l.
Proof.
  unfold sort_by_time.
  assert (G : forall acc, StronglySorted by_time acc ->
            filter (at_time t) (fold_left (fun a c => insert_by_time c a) l acc)
            = filter (at_time t) acc ++ filter (at_time t) l).
  { induction l as [| c l IH]; intros acc S; simpl.
    - rewrite app_nil_r. reflexivity.
    - rewrite IH.
      + rewrite (insert_by_time_stable t c acc S), <- app_assoc.
        destruct (at_time t c); reflexivity.
      + apply Sorted_StronglySorted; [exact by_time_trans |].
        apply insert_by_time_sorted, StronglySorted_Sorted, S. }
  rewrite G; [reflexivity | constructor].
Qed.

(* ================================================================== *)
(** ** CueBuilder: windows *)

Lemma nth_error_combine_seq {A} (l : list A) (i k : nat) :
  nth_error (combine (seq k (List.length l)) l) i
  = option_map (fun a => ((k + i)%nat, a)) (nth_error l i).
Proof.
  revert i k. induction l as [| a l IH]; intros [| i] k; simpl; try reflexivity.
  - rewrite Nat.add_0_r. reflexivity.
  - rewrite IH. destruct (nth_error l i); simpl; [| reflexivity].
    do 2 f_equal. lia.
Qed.

Lemma nth_error_enumerate {A} (l : list A) (i : nat) :
  nth_error (enumerate l) i = option_map (fun a => (i, a)) (nth_error l i).
Proof. unfold enumerate. apply nth_error_combine_seq. Qed.

Lemma length_enumerate {A} (l : list A) : List.length (enumerate l) = List.length l.
Proof.
  unfold enumerate. rewrite length_combine, length_seq. apply Nat.min_id.
Qed.

Lemma synced_nth (lines : list string) (spl : float)
    (synced : list (float * string)) (i : nat) (e : float * string) :
  nth_error synced i = Some e ->
  nth_error (_build_overlay_cues lines spl (Some synced)) i
  = Some (synced_cue synced spl (i, e)).
Proof.
  intros H. destruct synced as [| c cs]; [destruct i; discriminate |].
  unfold _build_overlay_cues.
  rewrite nth_error_map, nth_error_enumerate, H. reflexivity.
Qed.

















(** C10.  With a list of synced cues that is not empty, the output of
    [_build_overlay_cues] is the same for any two [lines] arguments. *)
Theorem synced_mode_ignores_lines :
  forall (lines1 lines2 : list string) (seconds_per_line : float)
         (synced_cues : list (float * string)),
    synced_cues <> [] ->
    _build_overlay_cues lines1 seconds_per_line (Some synced_cues)
    = _build_overlay_cues lines2 seconds_per_line (Some synced_cues).
Proof.
  intros lines1 lines2 spl [| c cs] H; [contradiction | reflexivity].
Qed.

(* ================================================================== *)
(** ** PlaybackCueTracker: active cue and active word *)

Lemma window_test (c : cue) (t : Q) :
  Float.leb (start c) t && Float.ltb t (end_ c) = true <-> in_window c t.
Proof.
  unfold in_window. rewrite andb_true_iff, leb_le, ltb_lt. reflexivity.
Qed.

Lemma findCueIndex_from_some (cues : list cue) (t : Q) (k r : Z) :
  findCueIndex_from k cues t = Some r ->
  exists i c,
    r = (k + Z.of_nat i)%Z /\ nth_error cues i = Some c /\ in_window c t /\
    forall j c', (j < i)%nat -> nth_error cues j = Some c' -> ~ in_window c' t.
Proof.
  revert k. induction cues as [| c cues IH]; intros k H; simpl in H; [discriminate |].
  destruct (Float.leb (start c) t && Float.ltb t (end_ c)) eqn:W.
  - injection H as <-. exists 0%nat, c. split; [| split; [| split]].
    + lia.
    + reflexivity.
    + apply window_test. exact W.
    + intros j c' Hj. lia.
  - destruct (IH _ H) as (i & c1 & -> & Hn & Hw & Hfirst).
    exists (S i), c1. split; [| split; [| split]].
    + lia.
    + exact Hn.
    + exact Hw.
    + intros [| j] c' Hj Hc'; simpl in Hc'.
      * injection Hc' as <-. rewrite <- window_test. congruence.
      * apply (Hfirst j c'); [lia | exact Hc'].
Qed.

Lemma findCueIndex_from_none (cues : list cue) (t : Q) (k : Z) :
  findCueIndex_from k cues t = None <-> forall c, In c cues -> ~ in_window c t.
Proof.
  revert k. induction cues as [| c cues IH]; intros k; simpl.
  - split; [intros _ c [] | reflexivity].
  - destruct (Float.leb (start c) t && Float.ltb t (end_ c)) eqn:W.
    + split; [discriminate |]. intros H. exfalso.
      apply (H c); [left; reflexivity | apply window_test; exact W].
    + rewrite IH. split.
      * intros H c' [<- | Hin]; [rewrite <- window_test; congruence | apply H; exact Hin].
      * intros H c' Hin. apply H. right. exact Hin.
Qed.

Lemma findCueIndex_no_window (cues : list cue) (t : Q) :
  cues <> [] -> (forall c, In c cues -> ~ in_window c t) ->
  findCueIndex cues t = (Z.of_nat (List.length cues) - 1)%Z.
Proof.
  intros Hne Hno. unfold findCueIndex.
  rewrite (proj2 (findCueIndex_from_none cues t 0) Hno).
  destruct cues; [contradiction |]. simpl List.length.
  destruct (Z.of_nat (S (List.length cues)) =? 0)%Z eqn:E;
    [apply Z.eqb_eq in E; lia | reflexivity].
Qed.

(** C3.  [findCueIndex] returns -1 for an empty cue list; the index of
    the first cue, in list order, whose window has [start <= t < end], when
    there is one; and the index of the last cue when no window contains [t],
    which is the case when [t] is at or past the end of every window, and when
    the cues are in ascending order of start and [t] is before the first
    start. *)
Theorem findCueIndex_spec :
  forall (cues : list cue) (t : Q),
    (cues = [] -> findCueIndex cues t = (-1)%Z) /\
    (forall i c,
       nth_error cues i = Some c -> in_window c t ->
       (forall j c', (j < i)%nat -> nth_error cues j = Some c' -> ~ in_window c' t) ->
       findCueIndex cues t = Z.of_nat i) /\
    (cues <> [] -> (forall c, In c cues -> ~ in_window c t) ->
       findCueIndex cues t = (Z.of_nat (List.length cues) - 1)%Z) /\
    (cues <> [] -> (forall c, In c cues -> end_ c <= t) ->
       findCueIndex cues t = (Z.of_nat (List.length cues) - 1)%Z) /\
    (forall first rest,
       cues = first :: rest -> StronglySorted by_start cues -> t < start first ->
       findCueIndex cues t = (Z.of_nat (List.length cues) - 1)%Z).
Proof.
  intros cues t. split; [| split; [| split; [| split]]].
  - intros ->. reflexivity.
  - intros i c Hn Hw Hfirst. unfold findCueIndex.
    destruct (findCueIndex_from 0 cues t) as [r |] eqn:F.
    + destruct (findCueIndex_from_some _ _ _ _ F) as (i' & c1 & -> & Hn' & Hw' & Hfirst').
      destruct (Nat.lt_trichotomy i i') as [L | [E | G]].
      * exfalso. exact (Hfirst' i c L Hn Hw).
      * subst. lia.
      * exfalso. exact (Hfirst i' c1 G Hn' Hw').
    + exfalso. apply (proj1 (findCueIndex_from_none _ _ _) F c).
      * eapply nth_error_In. exact Hn.
      * exact Hw.
  - apply findCueIndex_no_window.
  - intros Hne Hend. apply findCueIndex_no_window; [exact Hne |].
    intros c Hin [_ B]. specialize (Hend c Hin). lra.
  - intros first rest -> Hs Hlt. apply findCueIndex_no_window; [discriminate |].
    apply StronglySorted_inv in Hs. destruct Hs as [_ Hall].
    rewrite Forall_forall in Hall.
    intros c [<- | Hin] [A _]; [lra |].
    specialize (Hall c Hin). unfold by_start in Hall. lra.
Qed.

Lemma activeIdx_eq (c : cue) (t : Q) (n : nat) :
  activeIdx c t n
  = Z.min (Z.of_nat n - 1) (Qfloor (progress c t * inject_Z (Z.of_nat n))).
Proof.
  unfold activeIdx, progress, clamp, Float.floor, int_of_nat, Float.of_int.
  f_equal. apply Qfloor_comp.
  rewrite mul_eq, min_eq, max_eq, div_eq, sub_eq, max_eq, sub_eq, !lit_eq.
  reflexivity.
Qed.

Lemma duration_pos (c : cue) : 0 < Qmax 0.15 (end_ c - start c).
Proof.
  pose proof (Q.le_max_l 0.15 (end_ c - start c)). lra.
Qed.


Lemma progress_range (c : cue) (t : Q) : 0 <= progress c t /\ progress c t <= 0.999.
Proof.
  unfold progress, clamp. split.
  - apply Q.min_glb; [lra | apply Q.le_max_l].
  - apply Q.le_min_l.
Qed.



(* ================================================================== *)
(** ** The statements at sample inputs *)


Lemma get_json_with_retries_spec_witness :
  _get_json_with_retries sample_net_503 "u" 12 []
  = (Ok (JObject [("data"%string, JArray [])]),
     [EvGet "u" 12; EvSleep (Float.lit 1.2); EvGet "u" 12;
      EvSleep (Float.lit 2.4); EvGet "u" 12]).
Proof.
  apply (proj2 (proj2 (proj2 (get_json_with_retries_spec sample_net_503 "u" 12 [])))
           (Exn HTTPError "503 Server Error" (Some 503%Z))
           (Exn HTTPError "503 Server Error" (Some 503%Z)));
    reflexivity.
Defined.

Lemma findCueIndex_spec_witness :
  findCueIndex sample_cues (Float.lit 3.5) = 1%Z /\
  findCueIndex sample_cues (Float.lit 2.97) = 1%Z /\
  findCueIndex sample_cues (Float.lit 9) = 1%Z /\
  findCueIndex sample_cues (Float.lit 0.5) = 1%Z.
Proof.
  split; [| split; [| split]].
  - apply (proj1 (proj2 (findCueIndex_spec sample_cues (Float.lit 3.5)))
             1%nat (Cue (Float.lit 3.0) (Float.lit 5.8) "world")).
    + reflexivity.
    + split; [discriminate | reflexivity].
    + intros j c' Hj Hc'. destruct j as [| j]; [| lia].
      injection Hc' as <-. intros [_ B]. vm_compute in B. discriminate B.
  - apply (proj1 (proj2 (proj2 (findCueIndex_spec sample_cues (Float.lit 2.97)))));
      [discriminate |].
    intros c [<- | [<- | []]] [A B]; vm_compute in A, B;
      first [discriminate B | apply A; reflexivity].
  - apply (proj1 (proj2 (proj2 (proj2 (findCueIndex_spec sample_cues (Float.lit 9))))));
      [discriminate |].
    intros c [<- | [<- | []]]; discriminate.
  - apply (proj2 (proj2 (proj2 (proj2 (findCueIndex_spec sample_cues (Float.lit 0.5)))))
             (Cue (Float.lit 1.5) (Float.lit 2.95) "hello")
             [Cue (Float.lit 3.0) (Float.lit 5.8) "world"]).
    + reflexivity.
    + repeat constructor. discriminate.
    + reflexivity.
Defined.




Lemma synced_mode_ignores_lines_witness :
  _build_overlay_cues ["one line"%string] FALLBACK_SECONDS_PER_LINE (Some sample_synced)
  = _build_overlay_cues [] FALLBACK_SECONDS_PER_LINE (Some sample_synced).
Proof.
  apply synced_mode_ignores_lines. discriminate.
Defined.


Lemma parse_lrc_pairs_wellformed_witness :
  "hello"%string <> ""%string /\
  leading_space py_isspace "hello" = false /\
  trailing_space py_isspace "hello" = false /\
  py_strip "hello" = "hello"%string /\
  0 <= Float.lit 1.5 /\
  (exists ts, Float.lit 1.5 == ts_time ts) /\
  cues_of_line "[00:04]   " = Ok [].
Proof.
  pose proof parse_lrc_pairs_wellformed as [Hpairs Hempty].
  destruct (Hpairs ("[00:01.50]hello" ++ LF ++ "[00:03.00]world")%string
              [(Float.lit 1.5, "hello"%string); (Float.lit 3.0, "world"%string)]
              (Float.lit 1.5) "hello"%string)
    as (A & B & C & D & E & F).
  - vm_compute. reflexivity.
  - left. reflexivity.
  - split; [exact A |]. split; [exact B |]. split; [exact C |].
    split; [exact D |]. split; [exact E |]. split; [exact F |].
    apply (Hempty "[00:04]   "%string None); reflexivity.
Defined.

(** ** Display lines: [normalize_lyrics_lines] *)

Lemma remove_char_gone (c : ascii) (s : string) :
  contains_char c (remove_char c s) = false.
Proof.
  induction s as [| d s IH]; simpl; [reflexivity |].
  destruct (Ascii.eqb d c) eqn:E; [exact IH |]. simpl. rewrite E, IH. reflexivity.
Qed.

Lemma remove_char_absent (c : ascii) (s : string) :
  contains_char c s = false -> remove_char c s = s.
Proof.
  induction s as [| d s IH]; simpl; [reflexivity |].
  intros H. apply orb_false_iff in H. destruct H as [E H].
  rewrite E, (IH H). reflexivity.
Qed.

Lemma split_char_nonempty (c : ascii) (s : string) : split_char c s <> [].
Proof.
  induction s as [| d s IH]; simpl; [discriminate |].
  destruct (Ascii.eqb d c); [discriminate |].
  destruct (split_char c s); discriminate.
Qed.

Lemma split_char_pieces (c d : ascii) (s : string) :
  contains_char d (remove_char c s) = false ->
  Forall (fun p => contains_char d p = false) (split_char c s).
Proof.
  induction s as [| e s IH]; simpl; intros H.
  - repeat constructor.
  - destruct (Ascii.eqb e c) eqn:E.
    + constructor; [reflexivity | exact (IH H)].
    + simpl in H. apply orb_false_iff in H. destruct H as [Hd H].
      specialize (IH H).
      destruct (split_char c s) as [| h t] eqn:S.
      * constructor; [simpl; rewrite Hd; reflexivity | constructor].
      * apply Forall_cons_iff in IH. destruct IH as [Hh Ht].
        constructor; [simpl; rewrite Hd, Hh; reflexivity | exact Ht].
Qed.

Lemma split_char_no_separator (c : ascii) (s : string) :
  Forall (fun p => contains_char c p = false) (split_char c s).
Proof.
  apply split_char_pieces. apply remove_char_gone.
Qed.

Lemma remove_char_keeps_absent (c d : ascii) (s : string) :
  contains_char d s = false -> contains_char d (remove_char c s) = false.
Proof.
  induction s as [| e s IH]; simpl; [reflexivity |].
  intros H. apply orb_false_iff in H. destruct H as [Hd H].
  destruct (Ascii.eqb e c); [exact (IH H) |]. simpl. rewrite Hd, (IH H). reflexivity.
Qed.

Lemma lstrip_keeps_absent (space : ascii -> bool) (d : ascii) (s : string) :
  contains_char d s = false -> contains_char d (lstrip space s) = false.
Proof.
  induction s as [| e s IH]; simpl; [reflexivity |].
  intros H. destruct (space e); [| exact H].
  apply orb_false_iff in H. exact (IH (proj2 H)).
Qed.

Lemma rstrip_keeps_absent (space : ascii -> bool) (d : ascii) (s : string) :
  contains_char d s = false -> contains_char d (rstrip space s) = false.
Proof.
  induction s as [| e s IH]; simpl; [reflexivity |].
  intros H. apply orb_false_iff in H. destruct H as [Hd H].
  destruct (space e && is_empty (rstrip space s)); [reflexivity |].
  simpl. rewrite Hd, (IH H). reflexivity.
Qed.

Lemma strip_keeps_absent (space : ascii -> bool) (d : ascii) (s : string) :
  contains_char d s = false -> contains_char d (strip space s) = false.
Proof.
  intros H. unfold strip. apply rstrip_keeps_absent, lstrip_keeps_absent, H.
Qed.

Lemma lrc_lines_no_breaks (text : string) :
  Forall (fun p => contains_char (ascii_of_nat 10) p = false
                   /\ contains_char (ascii_of_nat 13) p = false)
         (lrc_lines text).
Proof.
  unfold lrc_lines.
  pose proof (split_char_no_separator (ascii_of_nat 10)
                (remove_char (ascii_of_nat 13) text)) as A.
  pose proof (split_char_pieces (ascii_of_nat 10) (ascii_of_nat 13)
                (remove_char (ascii_of_nat 13) text)) as B.
  assert (C : contains_char (ascii_of_nat 13)
                (remove_char (ascii_of_nat 10) (remove_char (ascii_of_nat 13) text))
              = false).
  { apply remove_char_keeps_absent, remove_char_gone. }
  specialize (B C). rewrite Forall_forall in *.
  intros p Hp. split; [exact (A p Hp) | exact (B p Hp)].
Qed.

Lemma normalized_line_clean (text line : string) :
  In line (normalize_lyrics_lines text) -> clean_line line.
Proof.
  intros H. unfold normalize_lyrics_lines in H.
  apply filter_In in H. destruct H as [Hin Hne].
  apply in_map_iff in Hin. destruct Hin as (raw & <- & Hraw).
  pose proof (lrc_lines_no_breaks text) as F. rewrite Forall_forall in F.
  destruct (F raw Hraw) as [Hlf Hcr].
  destruct (strip_clean py_isspace raw) as (_ & _ & I).
  unfold clean_line, py_strip. split; [| split; [exact I | split]].
  - intros E. unfold py_strip in Hne. rewrite E in Hne. discriminate.
  - apply strip_keeps_absent. exact Hlf.
  - apply strip_keeps_absent. exact Hcr.
Qed.

Lemma contains_char_app (c : ascii) (a b : string) :
  contains_char c (a ++ b) = contains_char c a || contains_char c b.
Proof.
  induction a as [| d a IH]; simpl; [reflexivity |].
  rewrite IH. apply orb_assoc.
Qed.

Lemma split_char_absent (c : ascii) (a : string) :
  contains_char c a = false -> split_char c a = [a].
Proof.
  induction a as [| d a IH]; simpl; [reflexivity |].
  intros H. apply orb_false_iff in H. destruct H as [E H].
  rewrite E, (IH H). reflexivity.
Qed.

Lemma split_char_app (c : ascii) (a rest : string) :
  contains_char c a = false ->
  split_char c (a ++ String c rest) = a :: split_char c rest.
Proof.
  induction a as [| d a IH]; simpl.
  - intros _. rewrite Ascii.eqb_refl. reflexivity.
  - intros H. apply orb_false_iff in H. destruct H as [E H].
    rewrite E, (IH H). reflexivity.
Qed.

Lemma join_cons (sep a b : string) (l : list string) :
  join sep (a :: b :: l) = (a ++ sep ++ join sep (b :: l))%string.
Proof. reflexivity. Qed.

Lemma split_join (c : ascii) (ls : list string) :
  ls <> [] -> Forall (fun p => contains_char c p = false) ls ->
  split_char c (join (String c "") ls) = ls.
Proof.
  induction ls as [| a ls IH]; intros N F; [contradiction |].
  apply Forall_cons_iff in F. destruct F as [Ha F].
  destruct ls as [| b ls].
  - simpl. apply split_char_absent. exact Ha.
  - rewrite join_cons. cbn [append].
    rewrite (split_char_app c a _ Ha). f_equal. apply IH; [discriminate | exact F].
Qed.

Lemma join_keeps_absent (c d : ascii) (ls : list string) :
  Ascii.eqb c d = false ->
  Forall (fun p => contains_char d p = false) ls ->
  contains_char d (join (String c "") ls) = false.
Proof.
  intros N. induction ls as [| a ls IH]; intros F; [reflexivity |].
  apply Forall_cons_iff in F. destruct F as [Ha F].
  destruct ls as [| b ls]; [exact Ha |].
  rewrite join_cons, !contains_char_app, Ha, (IH F). simpl. rewrite N. reflexivity.
Qed.

Lemma clean_lines_kept (ls : list string) :
  Forall clean_line ls ->
  filter (fun line => negb (is_empty line)) (map py_strip ls) = ls.
Proof.
  induction 1 as [| l ls Hl _ IH]; [reflexivity |].
  cbn [map filter]. destruct Hl as (N & I & _).
  rewrite I. destruct l; [contradiction |]. cbn [is_empty negb]. f_equal. exact IH.
Qed.

Lemma clean_lines_fixed (ls : list string) :
  Forall clean_line ls -> normalize_lyrics_lines (join LF ls) = ls.
Proof.
  intros C. unfold normalize_lyrics_lines, lrc_lines.
  assert (Lf : Forall (fun p => contains_char (ascii_of_nat 10) p = false) ls).
  { eapply Forall_impl; [| exact C]. intros l H. apply H. }
  assert (Cr : Forall (fun p => contains_char (ascii_of_nat 13) p = false) ls).
  { eapply Forall_impl; [| exact C]. intros l H. apply H. }
  rewrite remove_char_absent
    by (apply (join_keeps_absent (ascii_of_nat 10) (ascii_of_nat 13));
        [reflexivity | exact Cr]).
  destruct ls as [| a ls]; [reflexivity |].
  change LF with (String (ascii_of_nat 10) "").
  rewrite split_join; [| discriminate | exact Lf].
  apply clean_lines_kept. exact C.
Qed.

(** X1.  Every line that [normalize_lyrics_lines] returns is not empty, has
    no white space at either end, and holds no line feed and no carriage
    return. *)
Theorem normalize_lyrics_lines_clean :
  forall lyrics_text : string,
    Forall clean_line (normalize_lyrics_lines lyrics_text).
Proof.
  intros text. apply Forall_forall. intros line H.
  exact (normalized_line_clean text line H).
Qed.

(** X2.  Joining the lines that [normalize_lyrics_lines] returns with line
    feeds and normalising the joined text gives the same lines again. *)
Theorem normalize_lyrics_lines_join :
  forall lyrics_text : string,
    normalize_lyrics_lines (join LF (normalize_lyrics_lines lyrics_text))
    = normalize_lyrics_lines lyrics_text.
Proof.
  intros text. apply clean_lines_fixed. apply Forall_forall.
  intros line H. exact (normalized_line_clean text line H).
Qed.

(** ** More on the parser *)

Lemma cue_eqb_canonical (x y : float * string) :
  Qred (fst x) = fst x -> Qred (fst y) = fst y -> cue_eqb x y = true -> x = y.
Proof.
  destruct x as [a s], y as [b u]. simpl. intros Ha Hb H.
  unfold cue_eqb, Float.eqb in H. simpl in H.
  apply andb_true_iff in H. destruct H as [H1 H2].
  apply Qeq_bool_eq in H1. apply String.eqb_eq in H2. subst u.
  apply Qred_complete in H1. congruence.
Qed.

Lemma cue_eqb_sym (x y : float * string) : cue_eqb x y = cue_eqb y x.
Proof.
  unfold cue_eqb, Float.eqb. rewrite Qeq_bool_comm, String.eqb_sym. reflexivity.
Qed.

Lemma dedup_loop_complete (l : list (float * string)) (last : option (float * string))
    (x : float * string) :
  In x l ->
  (exists y, In y (dedup_loop last l) /\ cue_eqb x y = true) \/
  (exists p, last = Some p /\ cue_eqb x p = true).
Proof.
  revert last. induction l as [| c l IH]; intros last Hin; [destruct Hin |].
  assert (Refl : forall z : float * string, cue_eqb z z = true).
  { intros z. unfold cue_eqb, Float.eqb.
    rewrite Qeq_bool_refl, String.eqb_refl. reflexivity. }
  cbn [dedup_loop].
  destruct Hin as [<- | Hin].
  - destruct last as [p |].
    + destruct (cue_eqb c p) eqn:E; cbn [negb].
      * right. exists p. split; [reflexivity | exact E].
      * left. exists c. split; [left; reflexivity | apply Refl].
    + left. exists c. split; [left; reflexivity | apply Refl].
  - destruct (IH (Some c) Hin) as [(y & Hy & E) | (p & Hp & E)].
    + left. exists y. split; [apply in_or_app; right; exact Hy | exact E].
    + injection Hp as <-.
      destruct last as [p |].
      * destruct (cue_eqb c p) eqn:E'; cbn [negb].
        -- right. exists p. split; [reflexivity |].
           exact (cue_eqb_trans _ _ _ E E').
        -- left. exists c. split; [left; reflexivity | exact E].
      * left. exists c. split; [left; reflexivity | exact E].
Qed.

Lemma line_cues_canonical (raw_line : string) (x : float * string) :
  In x (line_cues raw_line) -> Qred (fst x) = fst x.
Proof.
  destruct x as [t txt]. intros H.
  destruct (line_cues_wellformed _ _ _ H) as (_ & _ & _ & _ & ts & _ & ->).
  cbn [fst]. apply Qred_complete, Qred_correct.
Qed.

(** X3.  A pair is in the list that [parse_lrc_synced_lines] returns exactly
    when some line of the text contributes it: the sort adds no pair and the
    removal of repeats drops no value. *)
Theorem parse_lrc_returns_appended_pairs :
  forall (lrc_text : string) (cues : list (float * string)) (x : float * string),
    parse_lrc_synced_lines lrc_text = Ok cues ->
    (In x cues <->
     exists raw_line l,
       In raw_line (lrc_lines lrc_text) /\ cues_of_line raw_line = Ok l /\ In x l).
Proof.
  intros lrc_text cues x H. split.
  - intros Hin. destruct (parse_lrc_in _ _ _ H Hin) as (raw & Hraw & Hx).
    exists raw, (line_cues raw). repeat split; try assumption. apply cues_of_line_eq.
  - intros (raw & l & Hraw & Hl & Hx).
    rewrite cues_of_line_eq in Hl. injection Hl as <-.
    rewrite parse_lrc_eq in H. injection H as <-.
    destruct (is_empty lrc_text) eqn:E.
    + apply is_empty_eq in E. subst lrc_text.
      destruct Hraw as [<- | []]. destruct Hx.
    + set (all := concat (map line_cues (lrc_lines lrc_text))).
      assert (A : In x all).
      { apply in_concat. exists (line_cues raw). split; [| exact Hx].
        apply in_map. exact Hraw. }
      assert (S : In x (sort_by_time all)).
      { apply (Permutation_in _ (Permutation_sym (sort_by_time_perm all))). exact A. }
      destruct (dedup_loop_complete _ None _ S) as [(y & Hy & Eq) | (p & Hp & _)];
        [| discriminate].
      assert (x = y) as ->; [| exact Hy].
      apply cue_eqb_canonical; [exact (line_cues_canonical _ _ Hx) | | exact Eq].
      apply dedup_loop_incl in Hy.
      apply (Permutation_in _ (sort_by_time_perm all)) in Hy.
      apply in_concat in Hy. destruct Hy as (l' & Hl' & Hy).
      apply in_map_iff in Hl'. destruct Hl' as (raw' & <- & _).
      exact (line_cues_canonical _ _ Hy).
Qed.

Lemma remove_char_idem (c : ascii) (s : string) :
  remove_char c (remove_char c s) = remove_char c s.
Proof.
  induction s as [| d s IH]; simpl; [reflexivity |].
  destruct (Ascii.eqb d c) eqn:E; [exact IH |]. simpl. rewrite E, IH. reflexivity.
Qed.

(** X4.  Removing the carriage returns from a text does not change what
    [parse_lrc_synced_lines] returns for it: Windows and Unix line ends parse
    alike. *)
Theorem parse_lrc_ignores_carriage_returns :
  forall lrc_text : string,
    parse_lrc_synced_lines (remove_char (ascii_of_nat 13) lrc_text)
    = parse_lrc_synced_lines lrc_text.
Proof.
  intros s. rewrite !parse_lrc_eq. f_equal.
  unfold lrc_lines. rewrite remove_char_idem.
  destruct (is_empty s) eqn:E.
  - apply is_empty_eq in E. subst s. reflexivity.
  - destruct (is_empty (remove_char (ascii_of_nat 13) s)) eqn:E'; [| reflexivity].
    apply is_empty_eq in E'. rewrite E'. reflexivity.
Qed.

(** X5.  [parse_lrc_synced_lines] returns a list for every text; the list is
    in ascending order of time and no pair in it equals the pair just before
    it. *)
Theorem parse_lrc_order :
  forall lrc_text : string,
  exists cues : list (float * string),
    parse_lrc_synced_lines lrc_text = Ok cues /\
    StronglySorted by_time cues /\
    forall i a b,
      nth_error cues i = Some a -> nth_error cues (S i) = Some b ->
      cue_eqb b a = false.
Proof.
  intros lrc_text. rewrite parse_lrc_eq. eexists. split; [reflexivity |].
  destruct (is_empty lrc_text).
  - split; [constructor | intros [| i] a b Ha; discriminate].
  - split.
    + apply dedup_loop_sorted, sort_by_time_sorted.
    + intros i a b. apply (no_repeat_after_nth None). apply dedup_loop_no_repeat.
Qed.

(** ** More on the player script *)

Lemma esc_step (c : ascii) (r : string) :
  esc (String c r)
  = ((if Ascii.eqb c "&" then "&amp;"
      else if Ascii.eqb c "<" then "&lt;"
      else if Ascii.eqb c ">" then "&gt;"
      else String c "") ++ esc r)%string.
Proof. reflexivity. Qed.

(** X6.  The text that [esc] returns holds no [<] and no [>]. *)
Theorem esc_no_angle_brackets :
  forall s : string,
    contains_char "<" (esc s) = false /\ contains_char ">" (esc s) = false.
Proof.
  induction s as [| c r [IH1 IH2]]; [split; reflexivity |].
  rewrite esc_step, !contains_char_app, IH1, IH2.
  destruct (Ascii.eqb c "&"); [split; reflexivity |].
  destruct (Ascii.eqb c "<") eqn:L; [split; reflexivity |].
  destruct (Ascii.eqb c ">") eqn:G; [split; reflexivity |].
  simpl. rewrite L, G. split; reflexivity.
Qed.

(** X7.  [esc] is one-to-one: two texts with the same escaped form are the
    same text. *)
Theorem esc_injective :
  forall s1 s2 : string, esc s1 = esc s2 -> s1 = s2.
Proof.
  induction s1 as [| c1 r1 IH]; intros [| c2 r2] H.
  - reflexivity.
  - rewrite esc_step in H.
    destruct (Ascii.eqb c2 "&"); [discriminate |].
    destruct (Ascii.eqb c2 "<"); [discriminate |].
    destruct (Ascii.eqb c2 ">"); discriminate.
  - rewrite esc_step in H.
    destruct (Ascii.eqb c1 "&"); [discriminate |].
    destruct (Ascii.eqb c1 "<"); [discriminate |].
    destruct (Ascii.eqb c1 ">"); discriminate.
  - rewrite !esc_step in H.
    destruct (Ascii.eqb c1 "&") eqn:A1;
      [| destruct (Ascii.eqb c1 "<") eqn:L1; [| destruct (Ascii.eqb c1 ">") eqn:G1]];
      (destruct (Ascii.eqb c2 "&") eqn:A2;
       [| destruct (Ascii.eqb c2 "<") eqn:L2; [| destruct (Ascii.eqb c2 ">") eqn:G2]]);
      repeat match goal with
             | E : Ascii.eqb ?c _ = true |- _ => apply Ascii.eqb_eq in E; subst c
             end;
      cbn [append] in H; try discriminate H;
      first
        [ injection H as H; f_equal; apply IH; exact H
        | injection H as E H; subst;
          first [ discriminate | f_equal; apply IH; exact H ] ].
Qed.

Lemma findCueIndex_range (cues : list cue) (t : Q) :
  cues <> [] ->
  exists i c,
    findCueIndex cues t = Z.of_nat i /\ nth_error cues i = Some c.
Proof.
  intros N. unfold findCueIndex.
  destruct (findCueIndex_from 0 cues t) as [r |] eqn:F.
  - destruct (findCueIndex_from_some _ _ _ _ F) as (i & c & -> & Hn & _).
    exists i, c. split; [lia | exact Hn].
  - destruct cues as [| c0 rest]; [contradiction |].
    destruct (nth_error (c0 :: rest) (List.length rest)) as [c |] eqn:L.
    + exists (List.length rest), c. split; [| exact L].
      cbn [List.length].
      destruct (Z.of_nat (S (List.length rest)) =? 0)%Z eqn:E;
        [apply Z.eqb_eq in E; lia | lia].
    + apply nth_error_None in L. simpl in L. lia.
Qed.

(** X8.  For a cue list that is not empty, [findCueIndex] is the index of a
    cue of the list, whatever the time, and [tick] sets the line to the
    rendering of that cue; for an empty list [findCueIndex] is -1 and [tick]
    leaves the line as it is. *)
Theorem tick_renders_a_cue :
  forall (cues : list cue) (t : Q) (innerHTML : string),
    (cues <> [] ->
     exists i c,
       findCueIndex cues t = Z.of_nat i /\ (i < List.length cues)%nat /\
       nth_error cues i = Some c /\
       tick cues t innerHTML = renderCue c t) /\
    (cues = [] ->
     findCueIndex cues t = (-1)%Z /\ tick cues t innerHTML = innerHTML).
Proof.
  intros cues t h. split.
  - intros N. destruct (findCueIndex_range cues t N) as (i & c & E & Hn).
    exists i, c. split; [exact E |]. split; [| split; [exact Hn |]].
    + apply nth_error_Some. congruence.
    + unfold tick. rewrite E.
      destruct (0 <=? Z.of_nat i)%Z eqn:P; [| apply Z.leb_gt in P; lia].
      rewrite Nat2Z.id, Hn. reflexivity.
  - intros ->. split; reflexivity.
Qed.



Lemma floor_999 (n : nat) :
  (1 <= n <= 1000)%nat -> Qfloor (0.999 * inject_Z (Z.of_nat n)) = (Z.of_nat n - 1)%Z.
Proof.
  intros H. apply Qfloor_unique.
  - assert (A : inject_Z (Z.of_nat n) <= 1000).
    { change 1000 with (inject_Z 1000). rewrite <- Zle_Qle. lia. }
    unfold Z.sub. rewrite inject_Z_plus. change (inject_Z (- (1))) with (-1 # 1).
    revert A. generalize (inject_Z (Z.of_nat n)). intros x A. lra.
  - replace (Z.of_nat n - 1 + 1)%Z with (Z.of_nat n) by lia.
    assert (A : 1 <= inject_Z (Z.of_nat n)).
    { change 1 with (inject_Z 1). rewrite <- Zle_Qle. lia. }
    revert A. generalize (inject_Z (Z.of_nat n)). intros x A. lra.
Qed.

(** X10.  At or before the start of the cue the first word is active; from
    [start + max(0.15, end - start)] on, the last word is active when the cue
    has at most 1000 words; with more than 1000 words the last word is never
    active. *)
Theorem activeIdx_ends :
  forall (c : cue) (t : Q) (n : nat),
    (t <= start c -> (0 < n)%nat -> activeIdx c t n = 0%Z) /\
    (start c + Qmax 0.15 (end_ c - start c) <= t -> (1 <= n <= 1000)%nat ->
     activeIdx c t n = (Z.of_nat n - 1)%Z) /\
    ((1000 < n)%nat -> (activeIdx c t n < Z.of_nat n - 1)%Z).
Proof.
  intros c t n. pose proof (duration_pos c) as D.
  split; [| split].
  - intros H Hn. rewrite activeIdx_eq.
    assert (P : progress c t == 0).
    { unfold progress, clamp.
      assert (A : (t - start c) / Qmax 0.15 (end_ c - start c) <= 0).
      { unfold Qdiv.
        assert (I : 0 <= / Qmax 0.15 (end_ c - start c))
          by (apply Qinv_le_0_compat; lra).
        assert (X : t - start c <= 0) by lra.
        pose proof (Qmult_le_compat_r _ _ _ X I) as M.
        rewrite Qmult_0_l in M. exact M. }
      rewrite (Q.max_l 0 _ A). apply Q.min_r. lra. }
    rewrite (Qfloor_comp _ 0) by (rewrite P; ring).
    change (Qfloor 0) with 0%Z. lia.
  - intros H Hn. rewrite activeIdx_eq.
    assert (P : progress c t == 0.999).
    { unfold progress, clamp.
      assert (A : 1 <= (t - start c) / Qmax 0.15 (end_ c - start c)).
      { apply Qle_shift_div_l; [exact D | lra]. }
      apply Q.min_l. pose proof (Q.le_max_r 0 ((t - start c) / Qmax 0.15 (end_ c - start c))).
      lra. }
    rewrite (Qfloor_comp _ (0.999 * inject_Z (Z.of_nat n))) by (rewrite P; reflexivity).
    rewrite floor_999 by exact Hn. lia.
  - intros Hn. rewrite activeIdx_eq.
    destruct (progress_range c t) as [_ Hi].
    assert (F : (Qfloor (progress c t * inject_Z (Z.of_nat n)) < Z.of_nat n - 1)%Z).
    { rewrite Zlt_Qlt.
      eapply Qle_lt_trans; [apply Qfloor_le |].
      assert (A : 1001 <= inject_Z (Z.of_nat n)).
      { change 1001 with (inject_Z 1001). rewrite <- Zle_Qle. lia. }
      unfold Z.sub. rewrite inject_Z_plus. change (inject_Z (- (1))) with (-1 # 1).
      assert (B : progress c t * inject_Z (Z.of_nat n) <= 0.999 * inject_Z (Z.of_nat n)).
      { apply Qmult_le_compat_r; [exact Hi | lra]. }
      revert A B. generalize (inject_Z (Z.of_nat n)), (progress c t). intros x p A B.
      lra. }
    lia.
Qed.

(** ** More on the cue builder *)

Lemma sorted_of_nth {A} (R : A -> A -> Prop) (l : list A) :
  (forall i j a b, (i < j)%nat -> nth_error l i = Some a -> nth_error l j = Some b ->
                   R a b) ->
  StronglySorted R l.
Proof.
  induction l as [| x l IH]; intros H; constructor.
  - apply IH. intros i j a b Lt Ha Hb. exact (H (S i) (S j) a b (proj1 (Nat.succ_lt_mono i j) Lt) Ha Hb).
  - apply Forall_forall. intros y Hy. apply In_nth_error in Hy. destruct Hy as [j Hj].
    exact (H 0%nat (S j) x y (Nat.lt_0_succ j) eq_refl Hj).
Qed.

Lemma nth_of_sorted {A} (R : A -> A -> Prop) (l : list A) :
  StronglySorted R l ->
  forall i j a b, (i < j)%nat -> nth_error l i = Some a -> nth_error l j = Some b ->
                  R a b.
Proof.
  induction 1 as [| x l S IH F]; intros i j a b Lt Ha Hb; [destruct i; discriminate |].
  destruct j as [| j]; [lia |]. simpl in Hb.
  destruct i as [| i]; simpl in Ha.
  - injection Ha as <-. rewrite Forall_forall in F. apply F.
    eapply nth_error_In. exact Hb.
  - apply (IH i j); [lia | exact Ha | exact Hb].
Qed.

Lemma synced_nth_inv (lines : list string) (spl : float)
    (synced : list (float * string)) (i : nat) (c : cue) :
  nth_error (_build_overlay_cues lines spl (Some synced)) i = Some c ->
  synced <> [] ->
  exists s txt, nth_error synced i = Some (s, txt)
                /\ c = synced_cue synced spl (i, (s, txt)).
Proof.
  intros H N. destruct (nth_error synced i) as [[s txt] |] eqn:E.
  - exists s, txt. split; [reflexivity |].
    rewrite (synced_nth lines spl synced i (s, txt) E) in H. congruence.
  - exfalso. destruct synced as [| e es]; [contradiction |].
    apply nth_error_None in E.
    assert (X : nth_error (_build_overlay_cues lines spl (Some (e :: es))) i = None).
    { apply nth_error_None. unfold _build_overlay_cues.
      rewrite length_map, length_enumerate. exact E. }
    congruence.
Qed.

Lemma synced_cue_start (synced : list (float * string)) (spl : float) (i : nat)
    (s : float) (txt : string) :
  start (synced_cue synced spl (i, (s, txt))) = Float.round s 3 /\
  text (synced_cue synced spl (i, (s, txt))) = txt.
Proof. unfold synced_cue. split; reflexivity. Qed.


(** X11.  In synced mode the cues come out in the order of the synced list
    with as many cues as it has entries, so when the synced list is in
    ascending order of time the cues are in ascending order of start. *)
Theorem synced_cues_keep_order :
  forall (lines : list string) (seconds_per_line : float)
         (synced_cues : list (float * string)),
    synced_cues <> [] ->
    List.length (_build_overlay_cues lines seconds_per_line (Some synced_cues))
    = List.length synced_cues /\
    map text (_build_overlay_cues lines seconds_per_line (Some synced_cues))
    = map snd synced_cues /\
    (StronglySorted by_time synced_cues ->
     StronglySorted by_start
       (_build_overlay_cues lines seconds_per_line (Some synced_cues))).
Proof.
  intros lines spl synced N. split; [| split].
  - destruct synced as [| e es]; [contradiction |].
    unfold _build_overlay_cues. rewrite length_map. apply length_enumerate.
  - apply nth_error_ext. intros i. rewrite !nth_error_map.
    destruct (nth_error synced i) as [[s txt] |] eqn:E.
    + rewrite (synced_nth lines spl synced i (s, txt) E). reflexivity.
    + destruct (nth_error (_build_overlay_cues lines spl (Some synced)) i) as [c |] eqn:C;
        [| reflexivity].
      destruct (synced_nth_inv _ _ _ _ _ C N) as (s & txt & E' & _). congruence.
  - intros S. apply sorted_of_nth. intros i j a b Lt Ha Hb.
    destruct (synced_nth_inv _ _ _ _ _ Ha N) as (s & txt & Ea & ->).
    destruct (synced_nth_inv _ _ _ _ _ Hb N) as (s' & txt' & Eb & ->).
    unfold by_start.
    rewrite (proj1 (synced_cue_start synced spl i s txt)).
    rewrite (proj1 (synced_cue_start synced spl j s' txt')).
    apply round3_mono.
    exact (nth_of_sorted by_time synced S i j (s, txt) (s', txt') Lt Ea Eb).
Qed.


(** ** Input validation *)

Lemma after_last_app (c : ascii) (stem ext : string) :
  contains_char c ext = false ->
  after_last c (stem ++ String c ext) = ext.
Proof.
  intros H. induction stem as [| d stem IH]; cbn [append after_last].
  - rewrite H, Ascii.eqb_refl. reflexivity.
  - rewrite contains_char_app. cbn [contains_char]. rewrite Ascii.eqb_refl.
    rewrite orb_true_r. exact IH.
Qed.

Lemma after_last_absent (c : ascii) (s : string) :
  contains_char c s = false -> after_last c s = s.
Proof.
  destruct s as [| d r]; [reflexivity |]. cbn [contains_char after_last].
  intros H. apply orb_false_iff in H. destruct H as [E H]. rewrite H, E. reflexivity.
Qed.

(** X13.  A file name [stem.ext], [ext] being what follows the last dot, is
    accepted exactly when [ext] in lower case is one of mp4, mov, webm, m4v,
    ogg and the MIME type starts with [video/]; a name with no dot, and an
    empty MIME type, are never accepted. *)
Theorem is_supported_video_spec :
  (forall stem ext mime_type : string,
     contains_char "." ext = false ->
     is_supported_video (stem ++ "." ++ ext) mime_type
     = existsb (String.eqb (py_lower ext)) SUPPORTED_EXTENSIONS
       && String.prefix "video/" mime_type) /\
  (forall filename mime_type : string,
     contains_char "." filename = false ->
     is_supported_video filename mime_type = false) /\
  (forall filename : string, is_supported_video filename "" = false).
Proof.
  split; [| split].
  - intros stem ext mime H. unfold is_supported_video. cbn [append].
    rewrite contains_char_app. cbn [contains_char]. rewrite Ascii.eqb_refl, orb_true_r.
    rewrite (after_last_app "." stem ext H).
    destruct mime; reflexivity.
  - intros filename mime H. unfold is_supported_video. rewrite H. reflexivity.
  - intros filename. unfold is_supported_video. cbn [is_empty negb].
    apply andb_false_r.
Qed.

Lemma id_char_plain (c : ascii) :
  is_id_char c = true -> py_isspace c = false /\ Ascii.eqb c "/" = false.
Proof.
  destruct c as [[] [] [] [] [] [] [] []]; vm_compute; intros H;
    first [discriminate H | split; reflexivity].
Qed.

Lemma all_chars_edges (p space : ascii -> bool) (s : string) :
  (forall c, p c = true -> space c = false) ->
  all_chars p s = true ->
  leading_space space s = false /\ trailing_space space s = false.
Proof.
  intros P. induction s as [| c r IH]; intros A; [split; reflexivity |].
  cbn [all_chars] in A. apply andb_true_iff in A. destruct A as [Hc Hr].
  split; [exact (P c Hc) |].
  destruct r as [| d r']; [exact (P c Hc) |].
  exact (proj2 (IH Hr)).
Qed.

Lemma all_chars_strip (p space : ascii -> bool) (s : string) :
  (forall c, p c = true -> space c = false) ->
  all_chars p s = true -> strip space s = s.
Proof.
  intros P A. destruct (all_chars_edges p space s P A) as [L T].
  unfold strip. rewrite (lstrip_fixed space s L). exact (rstrip_fixed space s T).
Qed.

Lemma all_chars_before_first (p : ascii -> bool) (c : ascii) (s : string) :
  (forall d, p d = true -> Ascii.eqb d c = false) ->
  all_chars p s = true -> before_first c s = s.
Proof.
  intros P. induction s as [| d r IH]; intros A; [reflexivity |].
  cbn [all_chars] in A. apply andb_true_iff in A. destruct A as [Hd Hr].
  cbn [before_first]. rewrite (P d Hd), (IH Hr). reflexivity.
Qed.

Lemma trailing_space_app (space : ascii -> bool) (a b : string) :
  b <> ""%string -> trailing_space space (a ++ b) = trailing_space space b.
Proof.
  intros N. induction a as [| c a IH]; [reflexivity |].
  cbn [append]. cbn [trailing_space].
  destruct (a ++ b)%string as [| d r] eqn:E; [| exact IH].
  destruct a; [simpl in E; contradiction | discriminate].
Qed.

(** What a well-formed id is to the string operations of the extractor. *)
Lemma video_id_plain (id : string) :
  fullmatch_video_id id = true ->
  is_empty id = false /\ py_strip id = id /\ before_first "/" id = id /\
  (forall a : string, rstrip (fun c => Ascii.eqb c "/") (a ++ id) = (a ++ id)%string) /\
  (forall b : string, lstrip (fun c => Ascii.eqb c "/") (id ++ b) = (id ++ b)%string).
Proof.
  intros F. unfold fullmatch_video_id in F. apply andb_true_iff in F.
  destruct F as [L A]. apply Nat.eqb_eq in L.
  assert (N : id <> ""%string) by (destruct id; [discriminate L | discriminate]).
  split; [destruct id; [discriminate | reflexivity] |].
  split; [apply (all_chars_strip is_id_char); [apply id_char_plain | exact A] |].
  split; [apply (all_chars_before_first is_id_char);
          [intros d H; apply id_char_plain; exact H | exact A] |].
  split.
  - intros a. apply rstrip_fixed. rewrite (trailing_space_app _ a id N).
    apply (all_chars_edges is_id_char); [| exact A].
    intros d H. apply id_char_plain. exact H.
  - intros b. apply lstrip_fixed. destruct id as [| c r]; [contradiction |].
    cbn [all_chars] in A. apply andb_true_iff in A.
    exact (proj2 (id_char_plain c (proj1 A))).
Qed.

Lemma rstrip_last (space : ascii -> bool) (s : string) (c : ascii) :
  space c = true -> rstrip space (s ++ String c "") = rstrip space s.
Proof.
  intros H. induction s as [| d s IH]; cbn [append rstrip].
  - rewrite H. reflexivity.
  - rewrite IH. reflexivity.
Qed.

Lemma append_assoc (a b c : string) : ((a ++ b) ++ c = a ++ b ++ c)%string.
Proof. induction a as [| d a IH]; cbn [append]; [| rewrite IH]; reflexivity. Qed.

Lemma prefix_app (a b : string) : String.prefix a (a ++ b) = true.
Proof.
  induction a as [| c a IH]; cbn [append]; [destruct b; reflexivity |].
  cbn [String.prefix]. destruct (ascii_dec c c) as [_ | N]; [exact IH | contradiction].
Qed.

Lemma other_host (host : string) :
  existsb (String.eqb host) ["youtube.com"; "m.youtube.com"; "music.youtube.com"]%string
  = true ->
  String.eqb host "youtu.be" = false.
Proof.
  cbn [existsb]. rewrite !orb_true_iff, !String.eqb_eq.
  intros [-> | [-> | [-> | H]]]; [reflexivity | reflexivity | reflexivity | discriminate H].
Qed.

Section YouTubeFacts.

Variable urlparse : string -> option parsed_url.
Variable parse_qs : string -> list (string * list string).

Lemma checked_id (video_id : option string) (id : string) :
  match video_id with
  | None => Ok None
  | Some video_id =>
      if is_empty video_id then Ok None
      else if fullmatch_video_id (py_strip video_id) then Ok (Some (py_strip video_id))
           else Ok None
  end = Ok (Some id) ->
  String.length id = 11%nat /\ all_chars is_id_char id = true.
Proof.
  destruct video_id as [v |]; [| discriminate].
  destruct (is_empty v); [discriminate |].
  destruct (fullmatch_video_id (py_strip v)) eqn:F; [| discriminate].
  intros H. injection H as <-. unfold fullmatch_video_id in F.
  apply andb_true_iff in F. destruct F as [L A].
  apply Nat.eqb_eq in L. split; assumption.
Qed.

(** X14.  An id that [extract_youtube_video_id] returns has exactly 11
    characters, each a word character or a hyphen, and comes from a URL whose
    host, in lower case and without a leading [www.], is youtu.be,
    youtube.com, m.youtube.com or music.youtube.com. *)
Theorem extract_youtube_video_id_sound :
  forall (url id : string),
    extract_youtube_video_id urlparse parse_qs url = Ok (Some id) ->
    String.length id = 11%nat /\
    all_chars is_id_char id = true /\
    exists parsed,
      urlparse (normalised_url url) = Some parsed /\
      is_youtube_host (url_host parsed) = true.
Proof.
  intros url id. unfold extract_youtube_video_id.
  destruct (is_empty url); [discriminate |].
  destruct (is_empty (py_strip url)); [discriminate |].
  fold (normalised_url url).
  destruct (urlparse (normalised_url url)) as [parsed |]; [| discriminate].
  fold (url_host parsed). unfold is_youtube_host.
  destruct (String.eqb (url_host parsed) "youtu.be") eqn:H1.
  - unfold rbind. intros H.
    destruct (checked_id (Some (before_first "/" (strip_slashes (path parsed)))) id H)
      as [L A].
    split; [exact L |]. split; [exact A |]. exists parsed.
    split; [reflexivity | rewrite H1; reflexivity].
  - destruct (existsb (String.eqb (url_host parsed))
                ["youtube.com"; "m.youtube.com"; "music.youtube.com"]%string) eqn:H2.
    + intros H.
      assert (G : exists v, match v with
                            | None => Ok None
                            | Some video_id =>
                                if is_empty video_id then Ok None
                                else if fullmatch_video_id (py_strip video_id)
                                     then Ok (Some (py_strip video_id))
                                     else Ok None
                            end = Ok (Some id)).
      { unfold rbind in H.
        destruct (String.eqb (strip_slashes (path parsed)) "watch").
        - destruct (query_v parse_qs (query parsed)) as [v | e]; [| discriminate].
          exists v. exact H.
        - destruct (String.prefix "shorts/" (strip_slashes (path parsed))).
          { exists (Some (before_first "/" (after_first "/" (strip_slashes (path parsed))))).
            exact H. }
          destruct (String.prefix "embed/" (strip_slashes (path parsed)));
            [| discriminate].
          exists (Some (before_first "/" (after_first "/" (strip_slashes (path parsed))))).
          exact H. }
      destruct G as [v G]. destruct (checked_id _ _ G) as [L A].
      split; [exact L |]. split; [exact A |]. exists parsed.
      split; [reflexivity | rewrite H2; apply orb_true_r].
    + discriminate.
Qed.

(** X15.  The four common forms are recognised.  For a URL that is not blank
    and that [urlparse] parses, and a text [id] of 11 word characters or
    hyphens: when the host is youtu.be and the path is [/id], or the host is
    youtube.com, m.youtube.com or music.youtube.com and either the path is
    [/watch] with [id] the first value of the query's [v], or the path is
    [/shorts/id] or [/embed/id], possibly followed by a slash, the function
    returns [id]. *)
Theorem extract_youtube_video_id_forms :
  forall (url : string) (parsed : parsed_url) (id : string),
    is_empty (py_strip url) = false ->
    urlparse (normalised_url url) = Some parsed ->
    fullmatch_video_id id = true ->
    (url_host parsed = "youtu.be"%string /\
     (path parsed = "/" ++ id \/ path parsed = "/" ++ id ++ "/")%string) \/
    (existsb (String.eqb (url_host parsed))
       ["youtube.com"; "m.youtube.com"; "music.youtube.com"]%string = true /\
     ((path parsed = "/watch"%string /\
       query_v parse_qs (query parsed) = Ok (Some id)) \/
      (path parsed = "/shorts/" ++ id \/ path parsed = "/shorts/" ++ id ++ "/")%string \/
      (path parsed = "/embed/" ++ id \/ path parsed = "/embed/" ++ id ++ "/")%string)) ->
    extract_youtube_video_id urlparse parse_qs url = Ok (Some id).
Proof.
  intros url parsed id B U F Hf.
  destruct (video_id_plain id F) as [E [S [P [R L]]]].
  assert (Done : (if is_empty id then Ok None
                  else if fullmatch_video_id (py_strip id)
                       then Ok (Some (py_strip id)) else Ok None)
                 = Ok (Some id)).
  { rewrite E, S, F. reflexivity. }
  assert (T : forall a : string,
            rstrip (fun c => Ascii.eqb c "/") (a ++ id ++ "/") = (a ++ id)%string).
  { intros a. rewrite <- append_assoc, rstrip_last by reflexivity. apply R. }
  assert (I0 : (id ++ "")%string = id).
  { clear. induction id as [| c r IH]; cbn [append]; [| rewrite IH]; reflexivity. }
  unfold extract_youtube_video_id.
  assert (Eu : is_empty url = false).
  { destruct url; [discriminate B | reflexivity]. }
  rewrite Eu, B. fold (normalised_url url). rewrite U. fold (url_host parsed).
  destruct Hf as [[H Hp] | [H Hp]].
  - rewrite H. cbn [String.eqb Ascii.eqb Bool.eqb]. unfold rbind.
    assert (Sp : strip_slashes (path parsed) = id).
    { unfold strip_slashes, strip.
      destruct Hp as [-> | ->]; cbn [append lstrip Ascii.eqb Bool.eqb].
      - rewrite <- I0 at 1. rewrite L, I0. exact (R ""%string).
      - rewrite L. exact (T ""%string). }
    rewrite Sp, P. exact Done.
  - rewrite (other_host _ H), H. unfold rbind.
    destruct Hp as [[Hp Q] | [Hp | Hp]].
    + rewrite Hp. change (strip_slashes "/watch") with "watch"%string.
      cbn [String.eqb Ascii.eqb Bool.eqb]. rewrite Q. exact Done.
    + assert (Sp : strip_slashes (path parsed) = ("shorts/" ++ id)%string).
      { unfold strip_slashes, strip.
        destruct Hp as [-> | ->]; cbn [append lstrip Ascii.eqb Bool.eqb];
          [exact (R "shorts/"%string) | exact (T "shorts/"%string)]. }
      rewrite Sp.
      assert (W : String.eqb ("shorts/" ++ id) "watch" = false) by reflexivity.
      assert (Pf : String.prefix "shorts/" ("shorts/" ++ id) = true)
        by apply prefix_app.
      assert (Af : after_first "/" ("shorts/" ++ id) = id) by reflexivity.
      rewrite W, Pf, Af, P. exact Done.
    + assert (Sp : strip_slashes (path parsed) = ("embed/" ++ id)%string).
      { unfold strip_slashes, strip.
        destruct Hp as [-> | ->]; cbn [append lstrip Ascii.eqb Bool.eqb];
          [exact (R "embed/"%string) | exact (T "embed/"%string)]. }
      rewrite Sp.
      assert (W : String.eqb ("embed/" ++ id) "watch" = false) by reflexivity.
      assert (Ps : String.prefix "shorts/" ("embed/" ++ id) = false) by reflexivity.
      assert (Pf : String.prefix "embed/" ("embed/" ++ id) = true)
        by apply prefix_app.
      assert (Af : after_first "/" ("embed/" ++ id) = id) by reflexivity.
      rewrite W, Ps, Pf, Af, P. exact Done.
Qed.

End YouTubeFacts.

(* ================================================================== *)
(** ** Lookups: what they request and what they return *)

Lemma spends_ret {A : Type} (ok : event -> Prop) (hi s : nat) (a : A) :
  spends ok 0 hi s (ret a).
Proof.
  intros tr. exists []. rewrite app_nil_r.
  split; [reflexivity |]. split; [cbn; lia |]. split; [cbn; lia | constructor].
Qed.

Lemma spends_raise {A : Type} (ok : event -> Prop) (hi s : nat) (e : exn) :
  spends ok 0 hi s (@raise A e).
Proof.
  intros tr. exists []. rewrite app_nil_r.
  split; [reflexivity |]. split; [cbn; lia |]. split; [cbn; lia | constructor].
Qed.

Lemma spends_lift {A : Type} (ok : event -> Prop) (hi s : nat) (r : result A) :
  spends ok 0 hi s (lift r).
Proof.
  intros tr. exists []. rewrite app_nil_r.
  split; [reflexivity |]. split; [cbn; lia |]. split; [cbn; lia | constructor].
Qed.

Lemma spends_bind {A B : Type} (ok : event -> Prop) (lo hi1 s1 hi2 s2 hi s : nat)
    (m : M A) (k : A -> M B) :
  (hi1 + hi2 <= hi)%nat -> (s1 + s2 <= s)%nat ->
  spends ok lo hi1 s1 m -> (forall a, spends ok 0 hi2 s2 (k a)) ->
  spends ok lo hi s (bind m k).
Proof.
  intros Hhi Hs Hm Hk tr. destruct (Hm tr) as [ev1 [E1 [[L1 U1] [S1 F1]]]].
  unfold bind. destruct (m tr) as [[a | e] tr1]; cbn [snd] in E1; subst tr1.
  - destruct (Hk a (tr ++ ev1)%list) as [ev2 [E2 [[L2 U2] [S2 F2]]]].
    exists (ev1 ++ ev2)%list. rewrite E2, app_assoc. split; [reflexivity |].
    rewrite requests_made_app, sleeps_made_app.
    split; [lia |]. split; [lia |]. apply Forall_app. split; assumption.
  - exists ev1. split; [reflexivity |]. split; [lia |]. split; [lia | assumption].
Qed.

Lemma spends_catch {A : Type} (ok : event -> Prop) (lo hi1 s1 hi2 s2 hi s : nat)
    (m : M A) (handler : exn -> M A) :
  (hi1 + hi2 <= hi)%nat -> (s1 + s2 <= s)%nat ->
  spends ok lo hi1 s1 m -> (forall e, spends ok 0 hi2 s2 (handler e)) ->
  spends ok lo hi s (catch m handler).
Proof.
  intros Hhi Hs Hm Hk tr. destruct (Hm tr) as [ev1 [E1 [[L1 U1] [S1 F1]]]].
  unfold catch. destruct (m tr) as [[a | e] tr1]; cbn [snd] in E1; subst tr1.
  - exists ev1. split; [reflexivity |]. split; [lia |]. split; [lia | assumption].
  - destruct (Hk e (tr ++ ev1)%list) as [ev2 [E2 [[L2 U2] [S2 F2]]]].
    exists (ev1 ++ ev2)%list. rewrite E2, app_assoc. split; [reflexivity |].
    rewrite requests_made_app, sleeps_made_app.
    split; [lia |]. split; [lia |]. apply Forall_app. split; assumption.
Qed.

Lemma spends_lower {A : Type} (ok : event -> Prop) (lo hi s : nat) (m : M A) :
  spends ok lo hi s m -> spends ok 0 hi s m.
Proof.
  intros H tr. destruct (H tr) as [ev [E [R [S F]]]]. exists ev.
  split; [exact E |]. split; [lia |]. split; [exact S | exact F].
Qed.

Lemma spends_allowed {A : Type} (p q : string -> Prop) (lo hi s : nat) (m : M A) :
  (forall url, p url -> q url) ->
  spends (lookup_event p) lo hi s m -> spends (lookup_event q) lo hi s m.
Proof.
  intros I H tr. destruct (H tr) as [ev [E [R [S F]]]]. exists ev.
  split; [exact E |]. split; [exact R |]. split; [exact S |].
  revert F. apply Forall_impl. intros [url t | sec]; cbn [lookup_event];
    [intros [T P]; split; [exact T | exact (I url P)] | trivial].
Qed.

Lemma spends_get_json (net : string -> nat -> result json)
    (allowed : string -> Prop) (url : string) :
  allowed url -> spends (lookup_event allowed) 1 3 2 (get_json net url).
Proof.
  intros Hu tr. unfold get_json. rewrite three_attempts.
  assert (G : lookup_event allowed (EvGet url LYRICS_TIMEOUT_SECONDS)).
  { split; [reflexivity | exact Hu]. }
  assert (S1 : lookup_event allowed (EvSleep (backoff 1))) by (left; reflexivity).
  assert (S2 : lookup_event allowed (EvSleep (backoff 2))) by (right; reflexivity).
  destruct (net url (requests_made tr)) as [v0 | e0];
    [exists (attempts_trace url LYRICS_TIMEOUT_SECONDS 1)
    | destruct (retry_wanted e0);
      [destruct (net url (requests_made tr + 1)%nat) as [v1 | e1];
       [exists (attempts_trace url LYRICS_TIMEOUT_SECONDS 2)
       | destruct (retry_wanted e1);
         [exists (attempts_trace url LYRICS_TIMEOUT_SECONDS 3)
         | exists (attempts_trace url LYRICS_TIMEOUT_SECONDS 2)]]
      | exists (attempts_trace url LYRICS_TIMEOUT_SECONDS 1)]];
    (split; [reflexivity |]);
    (split; [cbn; lia |]);
    (split; [cbn; lia |]);
    cbn [attempts_trace app]; repeat constructor; assumption.
Qed.

Lemma bind_ok {A B : Type} (m : M A) (k : A -> M B) (tr : trace) (b : B)
    (tr' : trace) :
  bind m k tr = (Ok b, tr') ->
  exists (a : A) (tr1 : trace), m tr = (Ok a, tr1) /\ k a tr1 = (Ok b, tr').
Proof.
  unfold bind. destruct (m tr) as [[a | e] tr1]; [| discriminate].
  intros H. exists a, tr1. split; [reflexivity | exact H].
Qed.

Lemma lift_ok {A : Type} (r : result A) (tr : trace) (a : A) (tr' : trace) :
  lift r tr = (Ok a, tr') -> r = Ok a /\ tr' = tr.
Proof. unfold lift. intros H. injection H as -> <-. split; reflexivity. Qed.

Lemma ret_ok {A : Type} (x : A) (tr : trace) (a : A) (tr' : trace) :
  ret x tr = (Ok a, tr') -> x = a /\ tr' = tr.
Proof. unfold ret. intros H. injection H as -> <-. split; reflexivity. Qed.

Lemma returns_ret {A : Type} (P : A -> Prop) (a : A) : P a -> returns P (ret a).
Proof. intros H tr b tr' E. injection E as <- _. exact H. Qed.

Lemma returns_raise {A : Type} (P : A -> Prop) (e : exn) : returns P (raise e).
Proof. intros tr b tr' E. discriminate E. Qed.

Lemma returns_bind {A B : Type} (Q : A -> Prop) (P : B -> Prop)
    (m : M A) (k : A -> M B) :
  returns Q m -> (forall a, Q a -> returns P (k a)) -> returns P (bind m k).
Proof.
  intros Hm Hk tr b tr' E. unfold bind in E.
  destruct (m tr) as [[a | e] tr1] eqn:Em; [| discriminate E].
  exact (Hk a (Hm _ _ _ Em) _ _ _ E).
Qed.

Lemma returns_any {A : Type} (m : M A) : returns (fun _ => True) m.
Proof. intros tr a tr' _. exact I. Qed.

Lemma returns_catch {A : Type} (P : A -> Prop) (m : M A) (handler : exn -> M A) :
  returns P m -> (forall e, returns P (handler e)) -> returns P (catch m handler).
Proof.
  intros Hm Hh tr a tr' E. unfold catch in E.
  destruct (m tr) as [[b | e] tr1] eqn:Em.
  - injection E as <- _. exact (Hm _ _ _ Em).
  - exact (Hh e _ _ _ E).
Qed.

Lemma py_strip_idem (s : string) : py_strip (py_strip s) = py_strip s.
Proof. exact (proj2 (proj2 (strip_clean py_isspace s))). Qed.

Lemma stripped_clean (s : string) :
  is_empty (py_strip s) = false -> clean_text (py_strip s).
Proof.
  intros E. split; [| apply py_strip_idem].
  intros H. rewrite H in E. discriminate E.
Qed.

Section LookupFacts.

Variable quote : string -> string.
Variable py_repr : json -> string.
Variable net : string -> nat -> result json.

Lemma find_exact_step (key t : string) (c : json) (rest : list json) :
  find_exact py_repr key t (c :: rest)
  = rbind (field_lower py_repr c key)
      (fun s => if String.eqb s t then Ok (Some c) else find_exact py_repr key t rest).
Proof.
  cbn [find_exact]. unfold field_lower, rbind.
  destruct (py_get c key (JString "")); reflexivity.
Qed.

Lemma find_exact_some (key t : string) (items : list json) (c : json) :
  find_exact py_repr key t items = Ok (Some c) ->
  first_match (fun x => field_lower py_repr x key = Ok t) items c.
Proof.
  induction items as [| x rest IH]; [discriminate |].
  rewrite find_exact_step. unfold rbind.
  destruct (field_lower py_repr x key) as [s | e] eqn:F; [| discriminate].
  destruct (String.eqb s t) eqn:E.
  - intros H. injection H as <-. apply String.eqb_eq in E. subst s.
    exists [], rest. split; [reflexivity |]. split; [exact F | constructor].
  - intros H. destruct (IH H) as [before [after [I [P N]]]].
    exists (x :: before), after. split; [rewrite I; reflexivity |].
    split; [exact P |]. constructor; [| exact N].
    rewrite F. intros G. injection G as ->. rewrite String.eqb_refl in E.
    discriminate E.
Qed.

Lemma find_exact_none (key t : string) (items : list json) :
  find_exact py_repr key t items = Ok None ->
  no_match (fun x => field_lower py_repr x key = Ok t) items.
Proof.
  induction items as [| x rest IH]; [constructor |].
  rewrite find_exact_step. unfold rbind.
  destruct (field_lower py_repr x key) as [s | e] eqn:F; [| discriminate].
  destruct (String.eqb s t) eqn:E; [discriminate |].
  intros H. constructor; [| exact (IH H)].
  rewrite F. intros G. injection G as ->. rewrite String.eqb_refl in E.
  discriminate E.
Qed.

Lemma find_exact_dict (key t : string) (items : list json) (c : json) :
  find_exact py_repr key t items = Ok (Some c) -> is_dict c = true.
Proof.
  intros H. destruct (find_exact_some _ _ _ _ H) as [_ [_ [_ [P _]]]].
  unfold field_lower, py_get in P. destruct (is_dict c); [reflexivity | discriminate P].
Qed.

(** The loop of a provider followed by its [if chosen is None]. *)
Lemma loop_then_first (key t : string) (items : list json) (found : option json)
    (chosen : json) :
  find_exact py_repr key t items = Ok found ->
  match found with
  | Some c => Ok c
  | None => py_first (JArray items)
  end = Ok chosen ->
  exact_or_first (fun x => field_lower py_repr x key = Ok t) items chosen.
Proof.
  intros F H. destruct found as [c |].
  - injection H as <-. left. exact (find_exact_some _ _ _ _ F).
  - right. split; [exact (find_exact_none _ _ _ F) |].
    destruct items as [| x rest]; [discriminate H |].
    injection H as <-. reflexivity.
Qed.

Lemma exact_or_first_in (p : json -> Prop) (items : list json) (item : json) :
  exact_or_first p items item -> In item items.
Proof.
  intros [[before [after [I _]]] | [_ H]].
  - rewrite I. apply in_or_app. right. left. reflexivity.
  - destruct items; [discriminate H |]. injection H as <-. left. reflexivity.
Qed.

Lemma spends_fetch_lyrics (allowed : string -> Prop) (artist title : string) :
  allowed (lyrics_url quote artist title) ->
  spends (lookup_event allowed) 1 3 2 (_fetch_lyrics quote net artist title).
Proof.
  intros H. unfold _fetch_lyrics.
  apply (spends_bind _ 1 3 2 0 0); [lia | lia | apply spends_get_json; exact H |].
  intros payload.
  destruct (truthy (if is_dict payload then dict_get payload "lyrics" JNull else JNull));
    [| apply spends_ret].
  destruct (if is_dict payload then dict_get payload "lyrics" JNull else JNull);
    first [apply spends_ret | apply spends_raise].
Qed.

Lemma spends_lyricsovh (song_name : string) :
  spends (lookup_event (primary_url quote song_name)) 1 6 4
    (_find_and_fetch_lyrics_lyricsovh quote py_repr net song_name).
Proof.
  unfold _find_and_fetch_lyrics_lyricsovh, _search_song_candidates.
  apply (spends_bind _ 1 3 2 3 2); [lia | lia | |].
  { apply (spends_bind _ 1 3 2 0 0); [lia | lia | | intros; apply spends_ret].
    apply spends_get_json. left. reflexivity. }
  intros candidates. destruct (negb (truthy candidates)); [apply spends_raise |].
  apply (spends_bind _ 0 0 0 3 2); [lia | lia | apply spends_lift |]. intros items.
  apply (spends_bind _ 0 0 0 3 2); [lia | lia | apply spends_lift |]. intros found.
  apply (spends_bind _ 0 0 0 3 2); [lia | lia | |].
  { destruct found; [apply spends_ret | apply spends_lift]. }
  intros chosen.
  apply (spends_bind _ 0 0 0 3 2); [lia | lia | apply spends_lift |]. intros title_v.
  apply (spends_bind _ 0 0 0 3 2); [lia | lia | apply spends_lift |]. intros artist_v.
  match goal with |- spends _ _ _ _ (if ?c then _ else _) => destruct c end;
    [apply spends_raise |].
  apply (spends_bind _ 0 3 2 0 0); [lia | lia | |].
  { apply (spends_lower _ 1), spends_fetch_lyrics.
    right. eexists. eexists. reflexivity. }
  intros lyrics. destruct (is_empty lyrics); [apply spends_raise | apply spends_ret].
Qed.

Lemma spends_lrclib (song_name : string) :
  spends (lookup_event (fallback_url quote song_name)) 1 3 2
    (_find_and_fetch_lyrics_lrclib quote py_repr net song_name).
Proof.
  unfold _find_and_fetch_lyrics_lrclib.
  apply (spends_bind _ 1 3 2 0 0); [lia | lia | |].
  { apply spends_get_json. reflexivity. }
  intros payload.
  destruct (negb (is_list payload) || negb (truthy payload)); [apply spends_raise |].
  apply (spends_bind _ 0 0 0 0 0); [lia | lia | apply spends_lift |]. intros items.
  apply (spends_bind _ 0 0 0 0 0); [lia | lia | apply spends_lift |]. intros found.
  apply (spends_bind _ 0 0 0 0 0); [lia | lia | |].
  { destruct found; [apply spends_ret | apply spends_lift]. }
  intros chosen.
  apply (spends_bind _ 0 0 0 0 0); [lia | lia | apply spends_lift |]. intros title_v.
  apply (spends_bind _ 0 0 0 0 0); [lia | lia | apply spends_lift |]. intros artist_v.
  match goal with |- spends _ _ _ _ (if ?c then _ else _) => destruct c end;
    [apply spends_raise |].
  apply (spends_bind _ 0 0 0 0 0); [lia | lia | apply spends_lift |]. intros plain_v.
  apply (spends_bind _ 0 0 0 0 0); [lia | lia | |].
  { destruct (is_empty (py_strip (py_str py_repr plain_v))); [| apply spends_ret].
    apply (spends_bind _ 0 0 0 0 0); [lia | lia | apply spends_lift |].
    intros synced_v. apply spends_ret. }
  intros lyrics. destruct (is_empty lyrics); [apply spends_raise | apply spends_ret].
Qed.

(** X16.  Whatever the network does, [find_and_fetch_lyrics] ends after at
    least one and at most nine requests and at most six sleeps; every
    request has the timeout of 12 seconds and goes to the first provider's
    search for the song, to the first provider's lyrics of some artist and
    title, or to the second provider's search for the song; every sleep lasts
    1.2 or 2.4 seconds. *)
Theorem find_and_fetch_lyrics_budget :
  forall (song_name : string) (tr : trace),
  exists ev : trace,
    snd (find_and_fetch_lyrics quote py_repr net song_name tr) = (tr ++ ev)%list /\
    (1 <= requests_made ev <= 9)%nat /\
    (sleeps_made ev <= 6)%nat /\
    Forall (lookup_event (fun url => primary_url quote song_name url \/
                                     fallback_url quote song_name url)) ev.
Proof.
  intros song_name.
  change (spends (lookup_event (fun url => primary_url quote song_name url \/
                                           fallback_url quote song_name url)) 1 9 6
            (find_and_fetch_lyrics quote py_repr net song_name)).
  unfold find_and_fetch_lyrics.
  apply (spends_catch _ 1 6 4 3 2); [lia | lia | |].
  { apply (spends_allowed (primary_url quote song_name)); [tauto |].
    apply spends_lyricsovh. }
  intros primary_error. destruct (caught primary_error); [| apply spends_raise].
  apply (spends_catch _ 0 3 2 0 0); [lia | lia | |].
  { apply (spends_lower _ 1).
    apply (spends_allowed (fallback_url quote song_name)); [tauto |].
    apply spends_lrclib. }
  intros fallback_exc. destruct (caught fallback_exc); [| apply spends_raise].
  destruct (isinstance primary_error Timeout && isinstance fallback_exc Timeout);
    [apply spends_raise |].
  destruct (isinstance primary_error ValueError && isinstance fallback_exc ValueError);
    apply spends_raise.
Qed.

Lemma not_empty_clean (s : string) :
  is_empty s = false -> py_strip s = s -> clean_text s.
Proof.
  intros E H. split; [| exact H]. intros N. rewrite N in E. discriminate E.
Qed.

Lemma returns_fetch_lyrics (artist title : string) :
  returns (fun s => py_strip s = s) (_fetch_lyrics quote net artist title).
Proof.
  unfold _fetch_lyrics.
  apply (returns_bind (fun _ => True)); [apply returns_any | intros payload _].
  destruct (truthy (if is_dict payload then dict_get payload "lyrics" JNull else JNull));
    [| apply returns_ret; reflexivity].
  destruct (if is_dict payload then dict_get payload "lyrics" JNull else JNull);
    first [apply returns_raise | apply returns_ret; apply py_strip_idem].
Qed.

Lemma returns_lyricsovh (song_name : string) :
  returns all_clean (_find_and_fetch_lyrics_lyricsovh quote py_repr net song_name).
Proof.
  unfold _find_and_fetch_lyrics_lyricsovh.
  apply (returns_bind (fun _ => True)); [apply returns_any | intros candidates _].
  destruct (negb (truthy candidates)); [apply returns_raise |].
  apply (returns_bind (fun _ => True)); [apply returns_any | intros items _].
  apply (returns_bind (fun _ => True)); [apply returns_any | intros found _].
  apply (returns_bind (fun _ => True)); [apply returns_any | intros chosen _].
  apply (returns_bind (fun _ => True)); [apply returns_any | intros title_v _].
  apply (returns_bind (fun _ => True)); [apply returns_any | intros artist_v _].
  match goal with |- returns _ (if ?c then _ else _) => destruct c eqn:E end;
    [apply returns_raise |].
  apply orb_false_iff in E. destruct E as [Et Ea].
  apply (returns_bind (fun s => py_strip s = s)); [apply returns_fetch_lyrics |].
  intros lyrics L. destruct (is_empty lyrics) eqn:El; [apply returns_raise |].
  apply returns_ret. split; [| split].
  - exact (not_empty_clean _ El L).
  - exact (stripped_clean _ Et).
  - exact (stripped_clean _ Ea).
Qed.

Lemma returns_lrclib (song_name : string) :
  returns all_clean (_find_and_fetch_lyrics_lrclib quote py_repr net song_name).
Proof.
  unfold _find_and_fetch_lyrics_lrclib.
  apply (returns_bind (fun _ => True)); [apply returns_any | intros payload _].
  destruct (negb (is_list payload) || negb (truthy payload)); [apply returns_raise |].
  apply (returns_bind (fun _ => True)); [apply returns_any | intros items _].
  apply (returns_bind (fun _ => True)); [apply returns_any | intros found _].
  apply (returns_bind (fun _ => True)); [apply returns_any | intros chosen _].
  apply (returns_bind (fun _ => True)); [apply returns_any | intros title_v _].
  apply (returns_bind (fun _ => True)); [apply returns_any | intros artist_v _].
  match goal with |- returns _ (if ?c then _ else _) => destruct c eqn:E end;
    [apply returns_raise |].
  apply orb_false_iff in E. destruct E as [Et Ea].
  apply (returns_bind (fun _ => True)); [apply returns_any | intros plain_v _].
  apply (returns_bind (fun s => py_strip s = s)).
  { destruct (is_empty (py_strip (py_str py_repr plain_v)));
      [| apply returns_ret; apply py_strip_idem].
    apply (returns_bind (fun _ => True)); [apply returns_any | intros synced_v _].
    apply returns_ret. apply py_strip_idem. }
  intros lyrics L. destruct (is_empty lyrics) eqn:El; [apply returns_raise |].
  apply returns_ret. split; [| split].
  - exact (not_empty_clean _ El L).
  - exact (stripped_clean _ Et).
  - exact (stripped_clean _ Ea).
Qed.

(** X17.  When [find_and_fetch_lyrics] returns, each of the lyrics, the
    matched title and the matched artist is a non-empty text without white
    space at either end. *)
Theorem find_and_fetch_lyrics_resolved :
  forall (song_name : string) (tr : trace) (lyrics title artist : string) (tr' : trace),
    find_and_fetch_lyrics quote py_repr net song_name tr
    = (Ok (lyrics, title, artist), tr') ->
    clean_text lyrics /\ clean_text title /\ clean_text artist.
Proof.
  intros song_name tr lyrics title artist tr' H.
  assert (R : returns all_clean (find_and_fetch_lyrics quote py_repr net song_name)).
  { unfold find_and_fetch_lyrics.
    apply returns_catch; [apply returns_lyricsovh |].
    intros primary_error. destruct (caught primary_error); [| apply returns_raise].
    apply returns_catch; [apply returns_lrclib |].
    intros fallback_exc. destruct (caught fallback_exc); [| apply returns_raise].
    destruct (isinstance primary_error Timeout && isinstance fallback_exc Timeout);
      [apply returns_raise |].
    destruct (isinstance primary_error ValueError && isinstance fallback_exc ValueError);
      apply returns_raise. }
  exact (R _ _ _ H).
Qed.

Lemma field_of_dict (item : json) (key : string) (v : json) :
  py_get item key (JString "") = Ok v -> v = dict_get item key (JString "").
Proof.
  unfold py_get. destruct (is_dict item); [| discriminate].
  intros H. injection H as <-. reflexivity.
Qed.

(** X18.  When the second provider's lookup returns, it has made its search
    and no other request, the search answered with a list, and the item it
    chose is the first whose track name is the song name up to case and
    surrounding white space, or the first item when there is none; the title
    and the artist are that item's stripped names, and the lyrics are its
    plain lyrics, or its synced lyrics when the plain ones are blank. *)
Theorem lrclib_result_spec :
  forall (song_name : string) (tr : trace) (lyrics title artist : string) (tr' : trace),
    _find_and_fetch_lyrics_lrclib quote py_repr net song_name tr
    = (Ok (lyrics, title, artist), tr') ->
    exists (items : list json) (chosen : json),
      get_json net (lrclib_url quote song_name) tr = (Ok (JArray items), tr') /\
      exact_or_first
        (fun x => field_lower py_repr x "trackName" = Ok (py_lower (py_strip song_name)))
        items chosen /\
      title = py_strip (py_str py_repr (dict_get chosen "trackName" (JString ""))) /\
      artist = py_strip (py_str py_repr (dict_get chosen "artistName" (JString ""))) /\
      lyrics
      = (let plain :=
           py_strip (py_str py_repr (dict_get chosen "plainLyrics" (JString ""))) in
         if is_empty plain
         then py_strip (py_str py_repr (dict_get chosen "syncedLyrics" (JString "")))
         else plain).
Proof.
  intros song_name tr lyrics title artist tr' H.
  unfold _find_and_fetch_lyrics_lrclib in H.
  apply bind_ok in H. destruct H as [payload [tr1 [G H]]].
  destruct (negb (is_list payload) || negb (truthy payload)) eqn:E; [discriminate H |].
  destruct payload as [| | | | items |]; try discriminate E.
  apply bind_ok in H. destruct H as [items' [tr2 [I H]]].
  apply lift_ok in I. destruct I as [I ->]. injection I as <-.
  apply bind_ok in H. destruct H as [found [tr2 [F H]]].
  apply lift_ok in F. destruct F as [F ->].
  apply bind_ok in H. destruct H as [chosen [tr2 [C H]]].
  assert (C' : match found with
               | Some c => Ok c
               | None => py_first (JArray items)
               end = Ok chosen /\ tr2 = tr1).
  { destruct found; [apply ret_ok in C | apply lift_ok in C]; destruct C as [C ->].
    - split; [rewrite C; reflexivity | reflexivity].
    - split; [exact C | reflexivity]. }
  destruct C' as [C' ->]. clear C.
  pose proof (loop_then_first _ _ _ _ _ F C') as Sel.
  apply bind_ok in H. destruct H as [title_v [tr2 [T H]]].
  apply lift_ok in T. destruct T as [T ->]. apply field_of_dict in T. subst title_v.
  apply bind_ok in H. destruct H as [artist_v [tr2 [A H]]].
  apply lift_ok in A. destruct A as [A ->]. apply field_of_dict in A. subst artist_v.
  match type of H with (if ?c then _ else _) _ = _ => destruct c end;
    [discriminate H |].
  apply bind_ok in H. destruct H as [plain_v [tr2 [P H]]].
  apply lift_ok in P. destruct P as [P ->]. apply field_of_dict in P. subst plain_v.
  apply bind_ok in H. destruct H as [lyrics' [tr2 [L H]]].
  destruct (is_empty lyrics'); [discriminate H |].
  apply ret_ok in H. destruct H as [H ->]. injection H as -> <- <-.
  exists items, chosen. cbv zeta.
  destruct (is_empty (py_strip (py_str py_repr (dict_get chosen "plainLyrics" (JString ""))))).
  - apply bind_ok in L. destruct L as [synced_v [tr3 [S L]]].
    apply lift_ok in S. destruct S as [S ->]. apply field_of_dict in S. subst synced_v.
    apply ret_ok in L. destruct L as [<- ->].
    repeat (split; [first [reflexivity | exact Sel | exact G] |]). reflexivity.
  - apply ret_ok in L. destruct L as [<- ->].
    repeat (split; [first [reflexivity | exact Sel | exact G] |]). reflexivity.
Qed.

Lemma find_exact_text (key t s : string) (rest : list json) (found : option json) :
  find_exact py_repr key t (JString s :: rest) <> Ok found.
Proof. cbn [find_exact]. intros H. discriminate H. Qed.

Lemma found_in_list (key t : string) (candidates : json) (items : list json)
    (found : option json) :
  truthy candidates = true ->
  py_iter candidates = Ok items ->
  find_exact py_repr key t items = Ok found ->
  candidates = JArray items.
Proof.
  intros T I F. destruct candidates as [| b | q | s | l | f]; try discriminate I.
  - destruct s as [| c r]; [discriminate T |].
    cbn [py_iter chars] in I. injection I as <-.
    exfalso. exact (find_exact_text _ _ _ _ _ F).
  - injection I as <-. reflexivity.
  - destruct f as [| kv f]; [discriminate T |].
    cbn [py_iter map] in I. injection I as <-.
    exfalso. exact (find_exact_text _ _ _ _ _ F).
Qed.

Lemma fetch_lyrics_ok (artist title lyrics : string) (tr tr' : trace) :
  _fetch_lyrics quote net artist title tr = (Ok lyrics, tr') ->
  is_empty lyrics = false ->
  exists (answer : json) (text : string),
    get_json net (lyrics_url quote artist title) tr = (Ok answer, tr') /\
    dict_get answer "lyrics" JNull = JString text /\
    lyrics = py_strip text.
Proof.
  intros H E. unfold _fetch_lyrics in H.
  apply bind_ok in H. destruct H as [answer [tr1 [G H]]].
  assert (D : (if is_dict answer then dict_get answer "lyrics" JNull else JNull)
              = dict_get answer "lyrics" JNull).
  { destruct answer; reflexivity. }
  rewrite D in H.
  destruct (truthy (dict_get answer "lyrics" JNull)).
  - destruct (dict_get answer "lyrics" JNull) as [| b | q | text | l | f] eqn:L;
      try discriminate H.
    apply ret_ok in H. destruct H as [<- ->].
    exists answer, text. split; [exact G |]. split; [exact L | reflexivity].
  - apply ret_ok in H. destruct H as [<- _]. discriminate E.
Qed.

(** X19.  When the first provider's lookup returns, its search answered with
    an object whose [data] is a list; the item it chose is the first whose
    title is the song name up to case and surrounding white space, or the
    first item when there is none; the title and the artist are that item's
    stripped title and artist name; and the lyrics are the stripped text that
    the lyrics request for exactly that artist and title answered with. *)
Theorem lyricsovh_result_spec :
  forall (song_name : string) (tr : trace) (lyrics title artist : string) (tr' : trace),
    _find_and_fetch_lyrics_lyricsovh quote py_repr net song_name tr
    = (Ok (lyrics, title, artist), tr') ->
    exists (payload : json) (items : list json) (chosen : json) (tr1 : trace)
           (answer : json) (text : string),
      get_json net (suggest_url quote song_name) tr = (Ok payload, tr1) /\
      is_dict payload = true /\
      dict_get payload "data" (JArray []) = JArray items /\
      exact_or_first
        (fun x => field_lower py_repr x "title" = Ok (py_lower (py_strip song_name)))
        items chosen /\
      title = py_strip (py_str py_repr (dict_get chosen "title" (JString ""))) /\
      artist
      = py_strip (py_str py_repr
                    (dict_get (dict_get chosen "artist" JNull) "name" (JString ""))) /\
      get_json net (lyrics_url quote artist title) tr1 = (Ok answer, tr') /\
      dict_get answer "lyrics" JNull = JString text /\
      lyrics = py_strip text.
Proof.
  intros song_name tr lyrics title artist tr' H.
  unfold _find_and_fetch_lyrics_lyricsovh in H.
  apply bind_ok in H. destruct H as [candidates [tr1 [G H]]].
  unfold _search_song_candidates in G.
  apply bind_ok in G. destruct G as [payload [tr2 [G R]]].
  apply ret_ok in R. destruct R as [R ->].
  destruct (truthy candidates) eqn:T; [| discriminate H]. cbn [negb] in H.
  assert (D : is_dict payload = true).
  { destruct (is_dict payload); [reflexivity |]. subst candidates. discriminate T. }
  rewrite D in R.
  apply bind_ok in H. destruct H as [items [tr3 [I H]]].
  apply lift_ok in I. destruct I as [I ->].
  apply bind_ok in H. destruct H as [found [tr3 [F H]]].
  apply lift_ok in F. destruct F as [F ->].
  pose proof (found_in_list _ _ _ _ _ T I F) as L.
  apply bind_ok in H. destruct H as [chosen [tr3 [C H]]].
  rewrite L in R, C. clear T I L candidates.
  assert (C' : match found with
               | Some c => Ok c
               | None => py_first (JArray items)
               end = Ok chosen /\ tr3 = tr2).
  { destruct found; [apply ret_ok in C | apply lift_ok in C]; destruct C as [C ->].
    - split; [rewrite C; reflexivity | reflexivity].
    - split; [exact C | reflexivity]. }
  destruct C' as [C' ->]. clear C.
  pose proof (loop_then_first _ _ _ _ _ F C') as Sel.
  apply bind_ok in H. destruct H as [title_v [tr3 [Tv H]]].
  apply lift_ok in Tv. destruct Tv as [Tv ->]. apply field_of_dict in Tv. subst title_v.
  apply bind_ok in H. destruct H as [artist_v [tr3 [Av H]]].
  apply lift_ok in Av. destruct Av as [Av ->].
  assert (Ao : dict_get (if is_dict artist_v then artist_v else JObject []) "name"
                 (JString "")
               = dict_get (dict_get chosen "artist" JNull) "name" (JString "")).
  { unfold py_get in Av. destruct (is_dict chosen); [| discriminate Av].
    injection Av as <-. destruct (dict_get chosen "artist" JNull); reflexivity. }
  rewrite Ao in H. clear Ao Av.
  match type of H with (if ?c then _ else _) _ = _ => destruct c end;
    [discriminate H |].
  apply bind_ok in H. destruct H as [lyrics' [tr3 [Ly H]]].
  destruct (is_empty lyrics') eqn:El; [discriminate H |].
  apply ret_ok in H. destruct H as [H ->]. injection H as -> <- <-.
  destruct (fetch_lyrics_ok _ _ _ _ _ Ly El) as [answer [text [Ga [Da Dl]]]].
  exists payload, items, chosen, tr2, answer, text.
  repeat (split; [first [reflexivity | assumption | symmetry; assumption] |]).
  exact Dl.
Qed.

Lemma find_title_artist_some (t a : string) (items : list json) (c : json) :
  find_title_artist py_repr t a items = Ok (Some c) ->
  first_match (fun x => field_lower py_repr x "trackName" = Ok t /\
                        field_lower py_repr x "artistName" = Ok a) items c.
Proof.
  induction items as [| x rest IH]; [discriminate |].
  cbn [find_title_artist]. unfold rbind at 1.
  destruct (field_lower py_repr x "trackName") as [s1 | e] eqn:F1; [| discriminate].
  unfold rbind at 1.
  destruct (field_lower py_repr x "artistName") as [s2 | e] eqn:F2; [| discriminate].
  destruct (String.eqb s1 t && String.eqb s2 a) eqn:E.
  - intros H. injection H as <-. apply andb_true_iff in E. destruct E as [E1 E2].
    apply String.eqb_eq in E1, E2. subst s1 s2.
    exists [], rest. split; [reflexivity |]. split; [split; assumption | constructor].
  - intros H. destruct (IH H) as [before [after [I [P N]]]].
    exists (x :: before), after. split; [rewrite I; reflexivity |].
    split; [exact P |]. constructor; [| exact N].
    rewrite F1, F2. intros [G1 G2]. injection G1 as ->. injection G2 as ->.
    rewrite !String.eqb_refl in E. discriminate E.
Qed.

Lemma find_title_artist_none (t a : string) (items : list json) :
  find_title_artist py_repr t a items = Ok None ->
  no_match (fun x => field_lower py_repr x "trackName" = Ok t /\
                     field_lower py_repr x "artistName" = Ok a) items.
Proof.
  induction items as [| x rest IH]; [constructor |].
  cbn [find_title_artist]. unfold rbind at 1.
  destruct (field_lower py_repr x "trackName") as [s1 | e] eqn:F1; [| discriminate].
  unfold rbind at 1.
  destruct (field_lower py_repr x "artistName") as [s2 | e] eqn:F2; [| discriminate].
  destruct (String.eqb s1 t && String.eqb s2 a) eqn:E; [discriminate |].
  intros H. constructor; [| exact (IH H)].
  rewrite F1, F2. intros [G1 G2]. injection G1 as ->. injection G2 as ->.
  rewrite !String.eqb_refl in E. discriminate E.
Qed.

Lemma rbind_ok {A B : Type} (r : result A) (k : A -> result B) (b : B) :
  rbind r k = Ok b -> exists a, r = Ok a /\ k a = Ok b.
Proof.
  destruct r as [a | e]; [| discriminate]. intros H. exists a.
  split; [reflexivity | exact H].
Qed.

(** X20.  [_pick_best_lrclib_candidate] on a list of candidates returns
    [None] exactly when the list is empty.  The item it returns is, in this
    order of preference: the first whose track name and artist name are the
    preferred title and artist (when both are given), the first whose track
    name is the preferred title (when it is given), the first whose track name
    is the song name, the first item; names are compared stripped and in
    lower case, and a later rule applies only when no item meets the
    earlier ones. *)
Theorem pick_best_lrclib_candidate_spec :
  forall (items : list json) (song_name : string)
         (preferred_title preferred_artist : option string),
    let t := py_lower (py_strip (text_of preferred_title)) in
    let a := py_lower (py_strip (text_of preferred_artist)) in
    let g := py_lower (py_strip song_name) in
    let titled := fun (s : string) (x : json) =>
                    field_lower py_repr x "trackName" = Ok s in
    let both := fun x : json =>
                  titled t x /\ field_lower py_repr x "artistName" = Ok a in
    (_pick_best_lrclib_candidate py_repr (JArray items) song_name
       preferred_title preferred_artist = Ok None <-> items = []) /\
    (forall item : json,
       _pick_best_lrclib_candidate py_repr (JArray items) song_name
         preferred_title preferred_artist = Ok (Some item) ->
       (given preferred_title && given preferred_artist = true /\
        first_match both items item) \/
       ((given preferred_title && given preferred_artist = true ->
         no_match both items) /\
        ((given preferred_title = true /\ first_match (titled t) items item) \/
         ((given preferred_title = true -> no_match (titled t) items) /\
          exact_or_first (titled g) items item)))).
Proof.
  intros items song_name pt pa t a g titled both.
  unfold _pick_best_lrclib_candidate.
  destruct items as [| x rest].
  { split; [split; reflexivity | discriminate]. }
  cbn [truthy negb py_iter py_first].
  fold t a g.
  assert (Main : forall r : option json,
    (by_both <-
       (if given pt && given pa
        then items <- Ok (x :: rest);; find_title_artist py_repr t a items
        else Ok None);;
     match by_both with
     | Some item => Ok (Some item)
     | None =>
         by_title <-
           (if given pt
            then items <- Ok (x :: rest);; find_exact py_repr "trackName" t items
            else Ok None);;
         match by_title with
         | Some item => Ok (Some item)
         | None =>
             items <- Ok (x :: rest);;
             by_song <- find_exact py_repr "trackName" g items;;
             match by_song with
             | Some item => Ok (Some item)
             | None => first <- Ok x;; Ok (Some first)
             end
         end
     end)%result = Ok r ->
    exists item, r = Some item /\
      ((given pt && given pa = true /\ first_match both (x :: rest) item) \/
       ((given pt && given pa = true -> no_match both (x :: rest)) /\
        ((given pt = true /\ first_match (titled t) (x :: rest) item) \/
         ((given pt = true -> no_match (titled t) (x :: rest)) /\
          exact_or_first (titled g) (x :: rest) item))))).
  { intros r H.
    apply rbind_ok in H. destruct H as [by_both [B H]].
    assert (B' : match by_both with
                 | Some item => given pt && given pa = true /\
                                first_match both (x :: rest) item
                 | None => given pt && given pa = true -> no_match both (x :: rest)
                 end).
    { destruct (given pt && given pa).
      - cbn [rbind] in B. destruct by_both as [item |].
        + split; [reflexivity | exact (find_title_artist_some _ _ _ _ B)].
        + intros _. exact (find_title_artist_none _ _ _ B).
      - injection B as <-. discriminate. }
    destruct by_both as [item |].
    { injection H as <-. exists item. split; [reflexivity |]. left. exact B'. }
    apply rbind_ok in H. destruct H as [by_title [T H]].
    assert (T' : match by_title with
                 | Some item => given pt = true /\
                                first_match (titled t) (x :: rest) item
                 | None => given pt = true -> no_match (titled t) (x :: rest)
                 end).
    { destruct (given pt).
      - cbn [rbind] in T. destruct by_title as [item |].
        + split; [reflexivity | exact (find_exact_some _ _ _ _ T)].
        + intros _. exact (find_exact_none _ _ _ T).
      - injection T as <-. discriminate. }
    destruct by_title as [item |].
    { injection H as <-. exists item. split; [reflexivity |].
      right. split; [exact B' |]. left. exact T'. }
    cbn [rbind] in H.
    apply rbind_ok in H. destruct H as [by_song [S H]].
    exists (match by_song with Some item => item | None => x end).
    split; [destruct by_song; injection H as <-; reflexivity |].
    right. split; [exact B' |]. right. split; [exact T' |].
    apply (loop_then_first "trackName" g (x :: rest) by_song); [exact S |].
    destruct by_song; reflexivity. }
  split.
  - split; [| discriminate]. intros H. destruct (Main _ H) as [item [N _]].
    discriminate N.
  - intros item H. destruct (Main _ H) as [item' [N P]]. injection N as <-. exact P.
Qed.

Lemma spends_fetch_synced (song_name : string)
    (preferred_title preferred_artist : option string) :
  spends (lookup_event (fallback_url quote song_name)) 1 3 2
    (fetch_synced_lyrics_lrc quote py_repr net song_name
       preferred_title preferred_artist).
Proof.
  unfold fetch_synced_lyrics_lrc, _search_lrclib_candidates.
  apply (spends_bind _ 1 3 2 0 0); [lia | lia | |].
  { apply (spends_bind _ 1 3 2 0 0); [lia | lia | | intros; apply spends_ret].
    apply spends_get_json. reflexivity. }
  intros candidates.
  apply (spends_bind _ 0 0 0 0 0); [lia | lia | apply spends_lift |].
  intros [chosen |]; [| apply spends_ret].
  destruct (negb (truthy chosen)); [apply spends_ret |].
  apply (spends_bind _ 0 0 0 0 0); [lia | lia | apply spends_lift |].
  intros v. apply spends_ret.
Qed.

(** X21.  [fetch_synced_lyrics_lrc] makes between one and three requests,
    all to the second provider's search for the song, and at most two
    sleeps.  A text it returns is not empty and has no white space at either
    end: it is the stripped [syncedLyrics] of the candidate picked from the
    list the search answered with.  When the search answers with something
    that is not a list, or with an empty list, it returns [None] and raises
    nothing. *)
Theorem fetch_synced_lyrics_lrc_spec :
  forall (song_name : string) (preferred_title preferred_artist : option string)
         (tr : trace),
    (exists ev : trace,
       snd (fetch_synced_lyrics_lrc quote py_repr net song_name
              preferred_title preferred_artist tr) = (tr ++ ev)%list /\
       (1 <= requests_made ev <= 3)%nat /\
       (sleeps_made ev <= 2)%nat /\
       Forall (lookup_event (fallback_url quote song_name)) ev) /\
    (forall (synced : string) (tr' : trace),
       fetch_synced_lyrics_lrc quote py_repr net song_name
         preferred_title preferred_artist tr = (Ok (Some synced), tr') ->
       clean_text synced /\
       exists (items : list json) (chosen : json),
         get_json net (lrclib_url quote song_name) tr = (Ok (JArray items), tr') /\
         _pick_best_lrclib_candidate py_repr (JArray items) song_name
           preferred_title preferred_artist = Ok (Some chosen) /\
         synced
         = py_strip (py_str py_repr (dict_get chosen "syncedLyrics" (JString "")))) /\
    (forall (payload : json) (tr' : trace),
       get_json net (lrclib_url quote song_name) tr = (Ok payload, tr') ->
       is_list payload && truthy payload = false ->
       fetch_synced_lyrics_lrc quote py_repr net song_name
         preferred_title preferred_artist tr = (Ok None, tr')).
Proof.
  intros song_name pt pa tr. split; [apply spends_fetch_synced | split].
  - intros synced tr' H. unfold fetch_synced_lyrics_lrc in H.
    apply bind_ok in H. destruct H as [candidates [tr1 [G H]]].
    unfold _search_lrclib_candidates in G.
    apply bind_ok in G. destruct G as [payload [tr2 [G R]]].
    apply ret_ok in R. destruct R as [R ->].
    apply bind_ok in H. destruct H as [picked [tr3 [P H]]].
    apply lift_ok in P. destruct P as [P ->].
    destruct picked as [chosen |]; [| discriminate H].
    destruct (negb (truthy chosen)); [discriminate H |].
    apply bind_ok in H. destruct H as [v [tr3 [V H]]].
    apply lift_ok in V. destruct V as [V ->]. apply field_of_dict in V. subst v.
    apply ret_ok in H. destruct H as [H ->].
    destruct (is_empty (py_strip (py_str py_repr
                (dict_get chosen "syncedLyrics" (JString ""))))) eqn:E;
      [discriminate H |].
    injection H as <-. split; [exact (stripped_clean _ E) |].
    destruct payload as [| b | q | s | items | f]; cbn [is_list] in R; subst candidates;
      try discriminate P.
    exists items, chosen. split; [exact G |]. split; [exact P | reflexivity].
  - intros payload tr' G E. unfold fetch_synced_lyrics_lrc, _search_lrclib_candidates.
    unfold bind at 1. unfold bind at 1. rewrite G. unfold ret at 1.
    assert (C : (if is_list payload then payload else JArray []) = JArray []).
    { destruct payload as [| b | q | s | items | f]; try reflexivity.
      destruct items; [reflexivity | discriminate E]. }
    rewrite C. reflexivity.
Qed.

End LookupFacts.

(* ================================================================== *)
(** ** The further statements at sample inputs *)

Lemma parse_lrc_returns_appended_pairs_witness :
  In (Float.lit 3.0, "world"%string) sample_synced <->
  exists raw_line l,
    In raw_line (lrc_lines sample_lrc) /\
    cues_of_line raw_line = Ok l /\ In (Float.lit 3.0, "world"%string) l.
Proof.
  apply (parse_lrc_returns_appended_pairs sample_lrc sample_synced (Float.lit 3.0, "world"%string)).
  vm_compute. reflexivity.
Defined.

Lemma esc_injective_witness : "a<b"%string = "a<b"%string.
Proof. apply (esc_injective "a<b" "a<b"). reflexivity. Defined.

Lemma tick_renders_a_cue_witness :
  exists i c,
    findCueIndex sample_cues (Float.lit 3.5) = Z.of_nat i /\
    (i < List.length sample_cues)%nat /\
    nth_error sample_cues i = Some c /\
    tick sample_cues (Float.lit 3.5) "" = renderCue c (Float.lit 3.5).
Proof.
  apply (proj1 (tick_renders_a_cue sample_cues (Float.lit 3.5) "")).
  discriminate.
Defined.


Lemma activeIdx_ends_witness :
  activeIdx (Cue (Float.lit 10) (Float.lit 13) "one two three") (Float.lit 9) 3 = 0%Z /\
  activeIdx (Cue (Float.lit 10) (Float.lit 13) "one two three") (Float.lit 13) 3 = 2%Z.
Proof.
  split.
  - apply (proj1 (activeIdx_ends (Cue (Float.lit 10) (Float.lit 13) "one two three")
                    (Float.lit 9) 3)).
    + discriminate.
    + lia.
  - apply (proj1 (proj2 (activeIdx_ends (Cue (Float.lit 10) (Float.lit 13) "one two three")
                           (Float.lit 13) 3))).
    + discriminate.
    + lia.
Defined.

Lemma synced_cues_keep_order_witness :
  List.length (_build_overlay_cues [] FALLBACK_SECONDS_PER_LINE (Some sample_synced))
  = 2%nat /\
  map text (_build_overlay_cues [] FALLBACK_SECONDS_PER_LINE (Some sample_synced))
  = ["hello"; "world"]%string /\
  StronglySorted by_start
    (_build_overlay_cues [] FALLBACK_SECONDS_PER_LINE (Some sample_synced)).
Proof.
  destruct (synced_cues_keep_order [] FALLBACK_SECONDS_PER_LINE sample_synced)
    as [L [T S]]; [discriminate |].
  split; [exact L |]. split; [exact T |]. apply S.
  repeat constructor; discriminate.
Defined.


Lemma is_supported_video_spec_witness :
  is_supported_video "clip.final.MP4" "video/mp4" = true /\
  is_supported_video "clip" "video/mp4" = false.
Proof.
  split.
  - change (is_supported_video ("clip.final" ++ "." ++ "MP4") "video/mp4" = true).
    rewrite (proj1 is_supported_video_spec "clip.final"%string "MP4"%string
               "video/mp4"%string);
      reflexivity.
  - apply (proj1 (proj2 is_supported_video_spec)). reflexivity.
Defined.

Lemma extract_youtube_video_id_sound_witness :
  String.length "dQw4w9WgXcQ" = 11%nat /\
  all_chars is_id_char "dQw4w9WgXcQ" = true /\
  exists parsed,
    sample_parse (normalised_url "youtu.be/dQw4w9WgXcQ") = Some parsed /\
    is_youtube_host (url_host parsed) = true.
Proof.
  apply (extract_youtube_video_id_sound sample_parse sample_parse_qs
           "youtu.be/dQw4w9WgXcQ" "dQw4w9WgXcQ").
  vm_compute. reflexivity.
Defined.

Lemma extract_youtube_video_id_forms_witness :
  extract_youtube_video_id sample_parse sample_parse_qs
    "https://www.youtube.com/watch?v=dQw4w9WgXcQ" = Ok (Some "dQw4w9WgXcQ"%string) /\
  extract_youtube_video_id sample_parse sample_parse_qs
    " music.youtube.com/embed/dQw4w9WgXcQ/ " = Ok (Some "dQw4w9WgXcQ"%string).
Proof.
  split.
  - apply (extract_youtube_video_id_forms sample_parse sample_parse_qs
             "https://www.youtube.com/watch?v=dQw4w9WgXcQ"
             (ParsedUrl "www.youtube.com" "/watch" "v=dQw4w9WgXcQ") "dQw4w9WgXcQ").
    + reflexivity.
    + reflexivity.
    + reflexivity.
    + right. split; [reflexivity |]. left. split; reflexivity.
  - apply (extract_youtube_video_id_forms sample_parse sample_parse_qs
             " music.youtube.com/embed/dQw4w9WgXcQ/ "
             (ParsedUrl "music.youtube.com" "/embed/dQw4w9WgXcQ/" "") "dQw4w9WgXcQ").
    + reflexivity.
    + reflexivity.
    + reflexivity.
    + right. split; [reflexivity |]. right. right. right. reflexivity.
Defined.

Lemma find_and_fetch_lyrics_resolved_witness :
  clean_text "Hello, it is me" /\ clean_text "Hello" /\ clean_text "Adele".
Proof.
  apply (find_and_fetch_lyrics_resolved sample_quote sample_repr sample_net_found
           "hello" [] "Hello, it is me" "Hello" "Adele"
           [EvGet (suggest_url sample_quote "hello") 12;
            EvGet (lyrics_url sample_quote "Adele" "Hello") 12]).
  vm_compute. reflexivity.
Defined.

Lemma lrclib_result_spec_witness :
  exists (items : list json) (chosen : json),
    get_json sample_net_found (lrclib_url sample_quote "hello") []
    = (Ok (JArray items), [EvGet (lrclib_url sample_quote "hello") 12]) /\
    exact_or_first
      (fun x => field_lower sample_repr x "trackName" = Ok (py_lower (py_strip "hello")))
      items chosen /\
    "Hello"%string
    = py_strip (py_str sample_repr (dict_get chosen "trackName" (JString ""))) /\
    "Adele"%string
    = py_strip (py_str sample_repr (dict_get chosen "artistName" (JString ""))) /\
    "[00:01.50]hello"%string
    = (let plain :=
         py_strip (py_str sample_repr (dict_get chosen "plainLyrics" (JString ""))) in
       if is_empty plain
       then py_strip (py_str sample_repr (dict_get chosen "syncedLyrics" (JString "")))
       else plain).
Proof.
  apply (lrclib_result_spec sample_quote sample_repr sample_net_found "hello" []).
  vm_compute. reflexivity.
Defined.

Lemma lyricsovh_result_spec_witness :
  exists (payload : json) (items : list json) (chosen : json) (tr1 : trace)
         (answer : json) (text : string),
    get_json sample_net_found (suggest_url sample_quote "hello") [] = (Ok payload, tr1) /\
    is_dict payload = true /\
    dict_get payload "data" (JArray []) = JArray items /\
    exact_or_first
      (fun x => field_lower sample_repr x "title" = Ok (py_lower (py_strip "hello")))
      items chosen /\
    "Hello"%string = py_strip (py_str sample_repr (dict_get chosen "title" (JString ""))) /\
    "Adele"%string
    = py_strip (py_str sample_repr
                  (dict_get (dict_get chosen "artist" JNull) "name" (JString ""))) /\
    get_json sample_net_found (lyrics_url sample_quote "Adele" "Hello") tr1
    = (Ok answer, [EvGet (suggest_url sample_quote "hello") 12;
                   EvGet (lyrics_url sample_quote "Adele" "Hello") 12]) /\
    dict_get answer "lyrics" JNull = JString text /\
    "Hello, it is me"%string = py_strip text.
Proof.
  apply (lyricsovh_result_spec sample_quote sample_repr sample_net_found "hello" []).
  vm_compute. reflexivity.
Defined.

Lemma pick_best_lrclib_candidate_spec_witness :
  (given (Some "Hello"%string) && given (Some "Adele"%string) = true /\
   first_match
     (fun x => field_lower sample_repr x "trackName" = Ok "hello"%string /\
               field_lower sample_repr x "artistName" = Ok "adele"%string)
     [sample_other_track; sample_track] sample_track) \/
  ((given (Some "Hello"%string) && given (Some "Adele"%string) = true ->
    no_match
      (fun x => field_lower sample_repr x "trackName" = Ok "hello"%string /\
                field_lower sample_repr x "artistName" = Ok "adele"%string)
      [sample_other_track; sample_track]) /\
   ((given (Some "Hello"%string) = true /\
     first_match (fun x => field_lower sample_repr x "trackName" = Ok "hello"%string)
       [sample_other_track; sample_track] sample_track) \/
    ((given (Some "Hello"%string) = true ->
      no_match (fun x => field_lower sample_repr x "trackName" = Ok "hello"%string)
        [sample_other_track; sample_track]) /\
     exact_or_first
       (fun x => field_lower sample_repr x "trackName" = Ok "some song"%string)
       [sample_other_track; sample_track] sample_track))).
Proof.
  apply (proj2 (pick_best_lrclib_candidate_spec sample_repr
                  [sample_other_track; sample_track] "Some Song"
                  (Some "Hello"%string) (Some "Adele"%string)) sample_track).
  vm_compute. reflexivity.
Defined.

Lemma fetch_synced_lyrics_lrc_spec_witness :
  clean_text "[00:01.50]hello" /\
  fst (fetch_synced_lyrics_lrc sample_quote sample_repr sample_net_empty
         "zzz-no-such-song-zzz" None None []) = Ok None.
Proof.
  split.
  - apply (proj1 (proj2 (fetch_synced_lyrics_lrc_spec sample_quote sample_repr
                           sample_net_found "hello" None None []))
             "[00:01.50]hello"%string
             [EvGet (lrclib_url sample_quote "hello") 12]).
    vm_compute. reflexivity.
  - rewrite (proj2 (proj2 (fetch_synced_lyrics_lrc_spec sample_quote sample_repr
                             sample_net_empty "zzz-no-such-song-zzz" None None []))
               (JArray [])
               [EvGet (lrclib_url sample_quote "zzz-no-such-song-zzz") 12]).
    + reflexivity.
    + vm_compute. reflexivity.
    + reflexivity.
Defined.
